(** * Self-improvement protocol: verification engine, pattern selector, pipeline

    A shallow embedding of [self_improvement_protocol.py]: the multi-agent
    verifier, the catalog of self-healing patterns, the pattern selector and
    the [handle_failure] pipeline, followed by the properties proved of them.

    Conventions of the embedding.
    - A Python [str] is a [string]; [str.lower] acts on the ASCII letters
      (the selector's keys are ASCII); [x in s] on strings is [is_substring].
    - A value of a [Dict[str, Any]] context is a [PyVal]; a dict read with
      [.get] is a [gmap]; a dict whose iteration order matters is an
      association list kept in insertion order.
    - A raised exception is the [Raise] case of [Result]; a coroutine that
      never suspends is the function it computes.
    - Generated source text (f-string templates) is kept symbolic in [Text].
    - Entries filled from [datetime.now()] are left out of the records. *)

From Stdlib Require Import String Ascii List ZArith QArith Bool Lia.
From stdpp Require Import base option list gmap strings.

Set Default Proof Using "Type".

(* ===================================================================== *)
(** ** Python values, exceptions and strings *)
(* ===================================================================== *)

Module Py.

(** The values of a context entry that the embedding covers: [None], a
    [bool], an [int], a [str], or a dict of such values with string keys.
    Of these only a [str] has [lower] and [title]. *)
#[warnings="-register-all"]
Inductive PyVal : Type :=
| VNone
| VBool (b : bool)
| VInt (z : Z)
| VStr (s : string)
| VDict (kvs : list (string * PyVal)).

(** The exceptions the modelled code can raise. *)
Inductive PyExn : Type :=
| ValueError (msg : string)
| AttributeError (msg : string).

(** The outcome of a call: a value, or a raised exception. *)
Inductive Result (A : Type) : Type :=
| Ok (a : A)
| Raise (e : PyExn).
Arguments Ok {A} a.
Arguments Raise {A} e.

#[global] Instance Result_ret : MRet Result := fun A a => Ok a.
#[global] Instance Result_bind : MBind Result := fun A B f m =>
  match m with
  | Ok a => f a
  | Raise e => Raise e
  end.

Definition is_ok {A} (r : Result A) : bool :=
  match r with Ok _ => true | Raise _ => false end.

(** [for x in xs: ys.append(await f(x))], stopping at the first exception. *)
Fixpoint mapM {A B} (f : A → Result B) (xs : list A) : Result (list B) :=
  match xs with
  | [] => Ok []
  | x :: xs' => y ← f x; ys ← mapM f xs'; Ok (y :: ys)
  end.

(** [k in s] for two strings: [k] occurs in [s] as a contiguous run. *)
Fixpoint is_substring (k s : string) : bool :=
  String.prefix k s ||
  match s with
  | EmptyString => false
  | String _ s' => is_substring k s'
  end.

Definition lower_ascii (c : ascii) : ascii :=
  let n := nat_of_ascii c in
  if (65 <=? n)%nat && (n <=? 90)%nat then ascii_of_nat (n + 32) else c.

(** [s.lower()]. *)
Fixpoint lower (s : string) : string :=
  match s with
  | EmptyString => EmptyString
  | String c s' => String (lower_ascii c) (lower s')
  end.

(** [s.split('\n')]. *)
Fixpoint split_lines_aux (acc : string) (s : string) : list string :=
  match s with
  | EmptyString => [String.rev acc]
  | String c s' =>
      if Ascii.eqb c "010"%char then String.rev acc :: split_lines_aux EmptyString s'
      else split_lines_aux (String c acc) s'
  end.
Definition split_lines (s : string) : list string := split_lines_aux EmptyString s.

(** [x in xs] on a list of strings. *)
Definition mem (x : string) (xs : list string) : bool :=
  existsb (String.eqb x) xs.

(** An f-string before rendering: literal pieces and interpolated values. *)
Inductive Piece : Type :=
| Lit (s : string)
| Val (v : PyVal).
Definition Text : Type := list Piece.

(** [d[k] = v] on an insertion-ordered dict. *)
Fixpoint dict_set {V} (k : string) (v : V) (d : list (string * V)) : list (string * V) :=
  match d with
  | [] => [(k, v)]
  | (k', v') :: d' => if String.eqb k' k then (k', v) :: d' else (k', v') :: dict_set k v d'
  end.

(** [d.get(k)] on an insertion-ordered dict. *)
Fixpoint dict_get {V} (k : string) (d : list (string * V)) : option V :=
  match d with
  | [] => None
  | (k', v) :: d' => if String.eqb k' k then Some v else dict_get k d'
  end.

(** [a == b]. Python has [True == 1] and [False == 0]; two dicts are equal
    when they have the same keys with equal values, in whatever order (the
    keys of a dict are distinct). Values of different kinds are unequal. *)
Fixpoint py_eq (a b : PyVal) {struct a} : bool :=
  match a, b with
  | VNone, VNone => true
  | VBool x, VBool y => Bool.eqb x y
  | VBool x, VInt y => Z.eqb (Z.b2z x) y
  | VInt x, VBool y => Z.eqb x (Z.b2z y)
  | VInt x, VInt y => Z.eqb x y
  | VStr x, VStr y => String.eqb x y
  | VDict xs, VDict ys =>
      Nat.eqb (length xs) (length ys) &&
      (fix items_eq (items : list (string * PyVal)) : bool :=
         match items with
         | [] => true
         | (k, x) :: items' =>
             match dict_get k ys with
             | Some y => py_eq x y
             | None => false
             end && items_eq items'
         end) xs
  | _, _ => false
  end.

(** [v == {"success": True}]; Python has [1 == True]. *)
Definition is_py_true (v : PyVal) : bool :=
  match v with
  | VBool true => true
  | VInt 1 => true
  | _ => false
  end.
Definition eq_success_true (v : PyVal) : bool :=
  match v with
  | VDict [(k, x)] => String.eqb k "success" && is_py_true x
  | _ => false
  end.

End Py.
Import Py.

(* ===================================================================== *)
(** ** Failures *)
(* ===================================================================== *)

Inductive FailureType : Type :=
| MCP_ERROR
| MISSING_TOOL
| UNCLEAR_DOCS
| RUNTIME_ERROR
| VALIDATION_ERROR.

Definition FailureType_value (t : FailureType) : string :=
  match t with
  | MCP_ERROR => "mcp_error"
  | MISSING_TOOL => "missing_tool"
  | UNCLEAR_DOCS => "unclear_docs"
  | RUNTIME_ERROR => "runtime_error"
  | VALIDATION_ERROR => "validation_error"
  end.

Record Failure : Type := mkFailure {
  type : FailureType;
  description : string;
  context : gmap string PyVal;
  timestamp : Z;
  resolved : bool;
  resolution : option string
}.

(** [Failure.to_dict]: the dict shares the context and copies the rest. *)
Definition to_dict (f : Failure) : Failure := f.

(** [context.get(key, default)]. *)
Definition context_get (f : Failure) (key : string) (dflt : PyVal) : PyVal :=
  default dflt (context f !! key).

(* ===================================================================== *)
(** ** MultiAgentVerifier *)
(* ===================================================================== *)

Module MultiAgentVerifier.

(** A registered agent: [{"id", "capabilities", "status"}]. *)
Record Agent : Type := mkAgent {
  id : string;
  capabilities : list string;
  status : string
}.

(** A change handed to the verifier. The ["type"] entry, a string wherever
    the repository builds one, may be missing; the other entries are kept
    as they are and no check reads them. *)
Record Change : Type := mkChange {
  change_type : option string;
  change_body : list (string * Text)
}.

(** What one check returns: [{"passed", "details"}]. *)
Record CheckResult : Type := mkCheckResult {
  passed : bool;
  details : string
}.

(** The check methods of the verifier object, looked up on [self] by
    [_perform_check]. *)
Record CheckMethods : Type := mkCheckMethods {
  _check_syntax : Change → Result CheckResult;
  _check_style : Change → Result CheckResult;
  _check_complexity : Change → Result CheckResult;
  _check_vulnerabilities : Change → Result CheckResult;
  _check_permissions : Change → Result CheckResult;
  _check_efficiency : Change → Result CheckResult;
  _check_memory_usage : Change → Result CheckResult;
  _default_check : Change → Result CheckResult
}.

(** The methods as the class defines them: every check passes. *)
Definition builtin_checks : CheckMethods := {|
  _check_syntax := fun _ => Ok (mkCheckResult true "Syntax valid");
  _check_style := fun _ => Ok (mkCheckResult true "Style compliant");
  _check_complexity := fun _ => Ok (mkCheckResult true "Complexity acceptable");
  _check_vulnerabilities := fun _ => Ok (mkCheckResult true "No vulnerabilities found");
  _check_permissions := fun _ => Ok (mkCheckResult true "Permissions appropriate");
  _check_efficiency := fun _ => Ok (mkCheckResult true "Efficiency optimal");
  _check_memory_usage := fun _ => Ok (mkCheckResult true "Memory usage acceptable");
  _default_check := fun _ => Ok (mkCheckResult true "Check passed")
|}.

Record Task : Type := mkTask {
  task_agent_id : string;
  task_change : Change;
  task_checks : list string
}.

(** What [_execute_verification] returns: [{"agent_id", "results", "overall"}]. *)
Record AgentResult : Type := mkAgentResult {
  agent_id : string;
  results : list (string * CheckResult);
  overall : bool
}.

Record Issue : Type := mkIssue {
  issue_agent : string;
  issue_check : string;
  issue_details : string
}.

(** What [_aggregate_results] returns. *)
Record Verdict : Type := mkVerdict {
  verified : bool;
  agent_count : nat;
  issues : list Issue;
  confidence : Q
}.

Record LogEntry : Type := mkLogEntry {
  log_change : Change;
  log_results : list AgentResult;
  log_aggregated : Verdict
}.

(** The verifier object: its check methods and its two lists. *)
Record Verifier : Type := mkVerifier {
  methods : CheckMethods;
  agents : list Agent;
  verification_results : list LogEntry
}.

Definition init (m : CheckMethods) : Verifier :=
  {| methods := m; agents := []; verification_results := [] |}.

Definition register_agent (agent_id : string) (caps : list string) (v : Verifier) : Verifier :=
  {| methods := methods v;
     agents := agents v ++ [mkAgent agent_id caps "active"];
     verification_results := verification_results v |}.

Definition _can_verify (agent : Agent) (change : Change) : bool :=
  let change_type := default "" (change_type change) in
  existsb (fun cap => is_substring cap change_type) (capabilities agent).

Definition _determine_checks (agent : Agent) (change : Change) : list string :=
  (if mem "code" (capabilities agent) then ["syntax"; "style"; "complexity"] else []) ++
  (if mem "security" (capabilities agent) then ["vulnerabilities"; "permissions"] else []) ++
  (if mem "performance" (capabilities agent) then ["efficiency"; "memory_usage"] else []).

Definition _create_verification_task (agent : Agent) (change : Change) : Task :=
  {| task_agent_id := id agent;
     task_change := change;
     task_checks := _determine_checks agent change |}.

Definition _perform_check (m : CheckMethods) (check_type : string) (change : Change)
  : Result CheckResult :=
  let check_func :=
    if String.eqb check_type "syntax" then _check_syntax m
    else if String.eqb check_type "style" then _check_style m
    else if String.eqb check_type "complexity" then _check_complexity m
    else if String.eqb check_type "vulnerabilities" then _check_vulnerabilities m
    else if String.eqb check_type "permissions" then _check_permissions m
    else if String.eqb check_type "efficiency" then _check_efficiency m
    else if String.eqb check_type "memory_usage" then _check_memory_usage m
    else _default_check m in
  check_func change.

(** The loop of [_execute_verification]: [results[check] = result]. *)
Fixpoint run_checks (m : CheckMethods) (change : Change) (checks : list string)
  (acc : list (string * CheckResult)) : Result (list (string * CheckResult)) :=
  match checks with
  | [] => Ok acc
  | check :: rest =>
      result ← _perform_check m check change;
      run_checks m change rest (dict_set check result acc)
  end.

Definition _execute_verification (m : CheckMethods) (task : Task) : Result AgentResult :=
  res ← run_checks m (task_change task) (task_checks task) [];
  Ok {| agent_id := task_agent_id task;
        results := res;
        overall := forallb (fun kv => passed (snd kv)) res |}.

Definition result_issues (r : AgentResult) : list Issue :=
  flat_map (fun kv => if passed (snd kv) then []
                      else [mkIssue (agent_id r) (fst kv) (details (snd kv))])
           (results r).

Definition _aggregate_results (rs : list AgentResult) : Verdict :=
  let all_passed := forallb overall rs in
  {| verified := all_passed;
     agent_count := length rs;
     issues := flat_map result_issues rs;
     confidence :=
       match rs with
       | [] => 0
       | _ :: _ => Z.of_nat (length (filter (fun r => overall r = true) rs))
                   # Pos.of_nat (length rs)
       end |}.

(** [asyncio.gather] over tasks that never suspend: they run in list order
    and the first exception raised is the one the caller sees. *)
Definition verify_change (v : Verifier) (change : Change) : Result (Verdict * Verifier) :=
  let verification_tasks :=
    map (fun agent => _create_verification_task agent change)
        (filter (fun agent => _can_verify agent change = true) (agents v)) in
  rs ← mapM (_execute_verification (methods v)) verification_tasks;
  let aggregated := _aggregate_results rs in
  Ok (aggregated,
      {| methods := methods v;
         agents := agents v;
         verification_results :=
           verification_results v ++ [mkLogEntry change rs aggregated] |}).

End MultiAgentVerifier.

(* ===================================================================== *)
(** ** SelfHealingPatterns *)
(* ===================================================================== *)

Module SelfHealingPatterns.

(** The pattern functions; each renders a code template around its target. *)
Inductive PatternFunc : Type :=
| _connection_retry_pattern
| _circuit_breaker_pattern
| _fallback_pattern
| _cache_recovery_pattern
| _rate_limiter_pattern
| _health_check_pattern.

(** [self.patterns], in the order [__init__] writes it. *)
Definition patterns : list (string * PatternFunc) :=
  [ ("connection_retry", _connection_retry_pattern);
    ("circuit_breaker", _circuit_breaker_pattern);
    ("fallback", _fallback_pattern);
    ("cache_recovery", _cache_recovery_pattern);
    ("rate_limiter", _rate_limiter_pattern);
    ("health_check", _health_check_pattern) ].

(** [self.patterns[name]], [None] when [name not in self.patterns]. *)
Fixpoint lookup_pattern (name : string) (d : list (string * PatternFunc))
  : option PatternFunc :=
  match d with
  | [] => None
  | (k, f) :: d' => if String.eqb k name then Some f else lookup_pattern name d'
  end.

(** The text a pattern function returns: its template with the target
    spliced in. *)
Definition call_pattern (f : PatternFunc) (target : PyVal) : Text :=
  match f with
  | _connection_retry_pattern => [Lit "connection_retry"; Val target]
  | _circuit_breaker_pattern => [Lit "circuit_breaker"; Val target]
  | _fallback_pattern => [Lit "fallback"; Val target]
  | _cache_recovery_pattern => [Lit "cache_recovery"; Val target]
  | _rate_limiter_pattern => [Lit "rate_limiter"; Val target]
  | _health_check_pattern => [Lit "health_check"; Val target]
  end.

(** What [apply_pattern] returns: [{"pattern", "target", "implementation"}]. *)
Record Applied : Type := mkApplied {
  pattern : string;
  target : PyVal;
  implementation : Text
}.

Definition unknown_pattern (pattern_name : string) : PyExn :=
  ValueError ("Unknown pattern: " +:+ pattern_name).

Definition apply_pattern (applied_patterns : list Applied)
  (pattern_name : string) (tgt : PyVal) : Result (Applied * list Applied) :=
  match lookup_pattern pattern_name patterns with
  | None => Raise (unknown_pattern pattern_name)
  | Some pattern_func =>
      let implementation := call_pattern pattern_func tgt in
      let result := mkApplied pattern_name tgt implementation in
      Ok (result, applied_patterns ++ [result])
  end.

End SelfHealingPatterns.

(* ===================================================================== *)
(** ** MCPDebugger *)
(* ===================================================================== *)

Module MCPDebugger.

Import MultiAgentVerifier.

(** The dict [{"file": ..., "additions": ...}]; it has no ["type"] entry. *)
Definition mkCodeChanges (file additions : Text) : Change :=
  {| change_type := None;
     change_body := [("file", file); ("additions", additions)] |}.

(** What a fix returns: [{"issue", "solution", "code_changes"}];
    [code_changes] is [None] when a debugger leaves the entry out. *)
Record Fix : Type := mkFix {
  issue : Text;
  solution : string;
  code_changes : option Change
}.

Definition _fix_connection_issue (failure : Failure) : Fix :=
  {| issue := [Lit "Connection failure"];
     solution := "Implemented retry logic with exponential backoff";
     code_changes := Some (mkCodeChanges [Lit "mcp_connection.py"]
                                         [Lit "connect_with_retry"]) |}.

Definition _fix_timeout_issue (failure : Failure) : Fix :=
  {| issue := [Lit "Timeout error"];
     solution := "Increased timeout and added configurable settings";
     code_changes := Some (mkCodeChanges [Lit "mcp_config.py"]
                                         [Lit "MCP_TIMEOUT"]) |}.

Definition _fix_auth_issue (failure : Failure) : Fix :=
  {| issue := [Lit "Authentication failure"];
     solution := "Enhanced credential management and validation";
     code_changes := Some (mkCodeChanges [Lit "mcp_auth.py"]
                                         [Lit "validate_credentials"]) |}.

(** The two scans of [_analyze_and_fix_error]: the last line holding
    ["Error:"], and the last one holding both ["File"] and [".py"]. *)
Definition scan_lines (error_lines : list string) : string * string :=
  fold_left (fun '(error_type, error_location) line =>
               (if is_substring "Error:" line then line else error_type,
                if is_substring "File" line && is_substring ".py" line
                then line else error_location))
            error_lines ("", "").

Definition _analyze_and_fix_error (stack_trace : string) : Fix :=
  let '(error_type, error_location) := scan_lines (split_lines stack_trace) in
  {| issue := [Lit (if String.eqb error_type "" then "Unknown error" else error_type)];
     solution := "Applied generic error handling";
     code_changes := Some (mkCodeChanges [Lit "error_handler.py"]
                                         [Lit "Error at "; Lit error_location]) |}.

(** [_fix_mcp_error]: [.lower()] on a traceback that is no string raises. *)
Definition _fix_mcp_error (fixes : list Fix) (failure : Failure)
  : Result (Fix * (list Fix * Failure)) :=
  match context_get failure "traceback" (VStr "") with
  | VStr error_trace =>
      let fx :=
        if is_substring "connection" (lower error_trace) then _fix_connection_issue failure
        else if is_substring "timeout" (lower error_trace) then _fix_timeout_issue failure
        else if is_substring "authentication" (lower error_trace) then _fix_auth_issue failure
        else _analyze_and_fix_error error_trace in
      Ok (fx, (fixes ++ [fx],
                {| type := type failure;
                   description := description failure;
                   context := context failure;
                   timestamp := timestamp failure;
                   resolved := true;
                   resolution := Some (solution fx) |}))
  | _ => Raise (AttributeError "object has no attribute 'lower'")
  end.

(** [_add_missing_tool]: [tool_name.title()] in the generated class name
    raises on a tool name that is no string. *)
Definition _add_missing_tool (failure : Failure) : Result Fix :=
  let tool_name := context_get failure "tool_name" (VStr "unknown") in
  match tool_name with
  | VStr name =>
      Ok {| issue := [Lit "Missing tool: "; Val tool_name];
            solution := "Added " +:+ name +:+ " to MCP";
            code_changes := Some (mkCodeChanges [Lit "tools/"; Val tool_name; Lit ".py"]
                                                [Lit "Tool"; Val tool_name]) |}
  | _ => Raise (AttributeError "object has no attribute 'title'")
  end.

Definition _improve_documentation (failure : Failure) : Fix :=
  let doc_section := context_get failure "section" (VStr "") in
  {| issue := [Lit "Unclear documentation: "; Val doc_section];
     solution := "Tested and improved documentation";
     code_changes := Some (mkCodeChanges [Lit "docs/improved_docs.md"]
                                         [Lit "# "; Val doc_section]) |}.

Definition _generic_fix (failure : Failure) : Fix :=
  {| issue := [Lit (description failure)];
     solution := "Applied generic error handling and logging";
     code_changes := Some (mkCodeChanges [Lit "generic_fixes.py"]
                                         [Lit "handle_generic_error"]) |}.

(** [debug_failure], on the debugger's list of fixes; the failure comes
    back as the call leaves it. *)
Definition debug_failure (fixes : list Fix) (failure : Failure)
  : Result (Fix * (list Fix * Failure)) :=
  match type failure with
  | MCP_ERROR => _fix_mcp_error fixes failure
  | MISSING_TOOL => fx ← _add_missing_tool failure; Ok (fx, (fixes, failure))
  | UNCLEAR_DOCS => Ok (_improve_documentation failure, (fixes, failure))
  | _ => Ok (_generic_fix failure, (fixes, failure))
  end.

End MCPDebugger.

(* ===================================================================== *)
(** ** RegressionTestGenerator *)
(* ===================================================================== *)

Module RegressionTestGenerator.

Record TestInfo : Type := mkTestInfo {
  name : string;
  failure : Failure;
  code : Text
}.

(** The generator's list of tests, and the files it has written. *)
Record Generator : Type := mkGenerator {
  generated_tests : list TestInfo;
  written : gmap string Text
}.

(** [hexdigest] is [hashlib.md5(s.encode()).hexdigest()]. *)
Definition _generate_test_name (hexdigest : string → string) (failure : Failure) : string :=
  let failure_hash :=
    String.substring 0 8
      (hexdigest (FailureType_value (type failure) +:+ "_" +:+ description failure)) in
  FailureType_value (type failure) +:+ "_" +:+ failure_hash.

Definition _generate_test_code (hexdigest : string → string) (failure : Failure) : Text :=
  let test_name := _generate_test_name hexdigest failure in
  let error_message := context_get failure "error" (VStr "") in
  let input_data := context_get failure "input" (VDict []) in
  [ Lit "class Test"; Lit test_name;
    Lit "Regression test for: "; Lit (description failure);
    Lit "self.test_data = "; Val input_data;
    Lit "assert str(e) != "; Val error_message;
    Lit "resolution = "; Lit (default "No resolution yet" (resolution failure)) ].

Definition generate_from_failure (hexdigest : string → string) (g : Generator)
  (failure : Failure) : string * Generator :=
  let test_name := _generate_test_name hexdigest failure in
  let test_code := _generate_test_code hexdigest failure in
  let test_info := mkTestInfo test_name (to_dict failure) test_code in
  let test_file := "tests/regression/test_" +:+ test_name +:+ ".py" in
  (test_file,
   {| generated_tests := generated_tests g ++ [test_info];
      written := <[test_file := test_code]> (written g) |}).

End RegressionTestGenerator.

(* ===================================================================== *)
(** ** EvaluationFramework *)
(* ===================================================================== *)

Module EvaluationFramework.

Record TestCase : Type := mkTestCase {
  name : string;
  input_data : gmap string PyVal;
  expected_output : PyVal;
  actual_output : option PyVal;
  passed : option bool;
  error : option string
}.

Record SuiteResult : Type := mkSuiteResult {
  suite_name : string;
  total_tests : nat;
  suite_passed : nat;
  failed : nat;
  pass_rate : Q;
  test_results : list TestCase
}.

Record Summary : Type := mkSummary {
  total_suites : nat;
  summary_total_tests : nat;
  total_passed : nat;
  total_failed : nat;
  overall_pass_rate : Q
}.

Record Report : Type := mkReport {
  summary : Summary;
  suites : list (string * SuiteResult);
  recommendations : list Text
}.

Record Evaluator : Type := mkEvaluator {
  test_suites : list (string * list TestCase);
  results : list Report
}.

Definition create_test_suite (name : string) (test_cases : list TestCase) (e : Evaluator)
  : Evaluator :=
  {| test_suites := dict_set name test_cases (test_suites e); results := results e |}.

Definition _execute_test (input_data : gmap string PyVal) : PyVal :=
  default (VStr "test_output") (input_data !! "expected_result").

(** [_run_test]. On the values of the embedding neither the lookup of
    [_execute_test] nor the comparison raises, so the [except] branch is
    never taken and [error] stays as it was. *)
Definition _run_test (test_case : TestCase) : TestCase :=
  let actual_output := _execute_test (input_data test_case) in
  {| name := name test_case;
     input_data := input_data test_case;
     expected_output := expected_output test_case;
     actual_output := Some actual_output;
     passed := Some (py_eq actual_output (expected_output test_case));
     error := error test_case |}.

Definition ratio (a b : nat) : Q :=
  if (0 <? b)%nat then Z.of_nat a # Pos.of_nat b else 0.

Definition _run_suite (suite_name : string) (test_cases : list TestCase) : SuiteResult :=
  let results := map _run_test test_cases in
  let passed_n := length (filter (fun r => passed r = Some true) results) in
  let total := length results in
  {| suite_name := suite_name;
     total_tests := total;
     suite_passed := passed_n;
     failed := total - passed_n;
     pass_rate := ratio passed_n total;
     test_results := results |}.

Definition _generate_recommendations (results : list (string * SuiteResult)) : list Text :=
  flat_map (fun '(suite_name, suite_result) =>
              if Qle_bool (8 # 10) (pass_rate suite_result) then []
              else [[Lit "Improve "; Lit suite_name; Lit ": ";
                     Val (VInt (Z.of_nat (failed suite_result)));
                     Lit " tests failing"]])
           results.

Definition _generate_report (results : list (string * SuiteResult)) : Report :=
  let total_tests := list_sum (map (fun r => total_tests (snd r)) results) in
  let total_passed := list_sum (map (fun r => suite_passed (snd r)) results) in
  {| summary := {| total_suites := length results;
                   summary_total_tests := total_tests;
                   total_passed := total_passed;
                   total_failed := total_tests - total_passed;
                   overall_pass_rate := ratio total_passed total_tests |};
     suites := results;
     recommendations := _generate_recommendations results |}.

(** [self.test_suites.get(suite_name, [])]. *)
Fixpoint get_suite (suite_name : string) (d : list (string * list TestCase)) : list TestCase :=
  match d with
  | [] => []
  | (k, cases) :: d' => if String.eqb k suite_name then cases else get_suite suite_name d'
  end.

(** [run_evaluation]. The test cases are updated in place, so the suites
    that ran hold the cases as [_run_test] leaves them. *)
Definition run_evaluation (suite_name : option string) (e : Evaluator) : Report * Evaluator :=
  let suites :=
    match suite_name with
    | Some n => if String.eqb n "" then test_suites e else [(n, get_suite n (test_suites e))]
    | None => test_suites e
    end in
  let all_results := fold_left (fun acc '(n, cases) => dict_set n (_run_suite n cases) acc)
                               suites [] in
  let report := _generate_report all_results in
  let ran := map fst suites in
  (report,
   {| test_suites := map (fun '(n, cases) =>
                            if mem n ran then (n, map _run_test cases)
                            else (n, cases))
                         (test_suites e);
      results := results e ++ [report] |}).

End EvaluationFramework.

(* ===================================================================== *)
(** ** SelfImprovementProtocol *)
(* ===================================================================== *)

Module SelfImprovementProtocol.

Import MultiAgentVerifier.

Inductive StepResult : Type :=
| RDebug (r : MCPDebugger.Fix)
| RVerify (r : Verdict)
| RRegression (test_file : string)
| RHealing (r : SelfHealingPatterns.Applied)
| REvaluation (r : EvaluationFramework.Report).

(** One entry of [result["steps"]]: [{"step", "result"}]. *)
Record Step : Type := mkStep {
  step : string;
  result : StepResult
}.

(** What [handle_failure] returns: [{"failure", "steps"}]. *)
Record Trace : Type := mkTrace {
  trace_failure : Failure;
  steps : list Step
}.

(** The orchestrator and the objects it owns; [D] is the state of its
    debugger. The tool discovery and the documentation tester take no part
    in [handle_failure] and are left out. *)
Record Protocol (D : Type) : Type := mkProtocol {
  debugger : D;
  evaluator : EvaluationFramework.Evaluator;
  verifier : Verifier;
  regression_generator : RegressionTestGenerator.Generator;
  self_healing : list SelfHealingPatterns.Applied
}.
Arguments mkProtocol {D}.
Arguments debugger {D}.
Arguments evaluator {D}.
Arguments verifier {D}.
Arguments regression_generator {D}.
Arguments self_healing {D}.

(** The [debug_failure] method of a debugger with state [D]. *)
Definition DebugMethod (D : Type) : Type :=
  D → Failure → Result (MCPDebugger.Fix * (D * Failure)).

Definition _setup_verification_agents (v : Verifier) : Verifier :=
  register_agent "performance_agent" ["performance"; "efficiency"]
    (register_agent "security_agent" ["security"; "permissions"]
       (register_agent "code_agent" ["code"; "syntax"; "style"] v)).

(** [__init__], around a debugger in its initial state. *)
Definition init {D} (d : D) : Protocol D :=
  {| debugger := d;
     evaluator := EvaluationFramework.mkEvaluator [] [];
     verifier := _setup_verification_agents (MultiAgentVerifier.init builtin_checks);
     regression_generator := RegressionTestGenerator.mkGenerator [] ∅;
     self_healing := [] |}.

Definition pattern_map : list (string * string) :=
  [ ("connection", "connection_retry");
    ("timeout", "circuit_breaker");
    ("rate_limit", "rate_limiter");
    ("service_unavailable", "fallback");
    ("cache_miss", "cache_recovery") ].

(** The loop of [_determine_healing_pattern] over [pattern_map.items()]. *)
Fixpoint first_match (rules : list (string * string)) (error_type : string) : option string :=
  match rules with
  | [] => None
  | (key, pattern) :: rest =>
      if is_substring key (lower error_type) then Some pattern
      else first_match rest error_type
  end.

(** The selector on the error type itself. *)
Definition select (error_type : string) : option string :=
  first_match pattern_map error_type.

(** [_determine_healing_pattern]: [.lower()] on an ["error_type"] entry
    that is no string raises. *)
Definition _determine_healing_pattern (failure : Failure) : Result (option string) :=
  match context_get failure "error_type" (VStr "") with
  | VStr error_type => Ok (select error_type)
  | _ => Raise (AttributeError "object has no attribute 'lower'")
  end.

(** [bool(d)] for a dict held as a change. *)
Definition change_truthy (c : Change) : bool :=
  match change_type c, change_body c with
  | None, [] => false
  | _, _ => true
  end.

Definition _run_evaluation (e : EvaluationFramework.Evaluator) (failure : Failure)
  : EvaluationFramework.Report * EvaluationFramework.Evaluator :=
  let test_cases :=
    [ {| EvaluationFramework.name := "test_fix_" +:+ FailureType_value (type failure);
         EvaluationFramework.input_data := context failure;
         EvaluationFramework.expected_output := VDict [("success", VBool true)];
         EvaluationFramework.actual_output := None;
         EvaluationFramework.passed := None;
         EvaluationFramework.error := None |} ] in
  let suite := "fix_" +:+ FailureType_value (type failure) in
  EvaluationFramework.run_evaluation (Some suite)
    (EvaluationFramework.create_test_suite suite test_cases e).

(** [handle_failure], with the debugger's method [debug_failure] and the
    digest used for test names. It returns the trace, the orchestrator and
    the failure as the call leaves them. *)
Definition handle_failure {D} (debug_failure : DebugMethod D)
  (hexdigest : string → string) (self : Protocol D) (failure : Failure)
  : Result (Trace * (Protocol D * Failure)) :=
  let failure_dict := to_dict failure in
  (* Step 1: debug and fix *)
  '(debug_result, (dbg, failure)) ← debug_failure (debugger self) failure;
  let steps := [mkStep "debug" (RDebug debug_result)] in
  (* Step 2: multi-agent verification *)
  '(steps, vrf) ←
    match MCPDebugger.code_changes debug_result with
    | Some change =>
        if change_truthy change then
          '(verification, vrf) ← verify_change (verifier self) change;
          Ok (steps ++ [mkStep "verify" (RVerify verification)], vrf)
        else Ok (steps, verifier self)
    | None => Ok (steps, verifier self)
    end;
  (* Step 3: generate regression test *)
  let '(test_file, gen) :=
    RegressionTestGenerator.generate_from_failure hexdigest
      (regression_generator self) failure in
  let steps := steps ++ [mkStep "regression_test" (RRegression test_file)] in
  (* Step 4: apply self-healing pattern *)
  pattern ← _determine_healing_pattern failure;
  '(steps, applied) ←
    match pattern with
    | Some p =>
        if String.eqb p "" then Ok (steps, self_healing self)
        else
          '(healing_result, applied) ←
            SelfHealingPatterns.apply_pattern (self_healing self) p
              (context_get failure "target" (VStr "system"));
          Ok (steps ++ [mkStep "self_healing" (RHealing healing_result)], applied)
    | None => Ok (steps, self_healing self)
    end;
  (* Step 5: run evaluation *)
  let '(eval_result, ev) := _run_evaluation (evaluator self) failure in
  let steps := steps ++ [mkStep "evaluation" (REvaluation eval_result)] in
  Ok (mkTrace failure_dict steps,
      ({| debugger := dbg;
          evaluator := ev;
          verifier := vrf;
          regression_generator := gen;
          self_healing := applied |}, failure)).

(** The step names of a trace, and the pattern of its self-healing step. *)
Definition step_names (t : Trace) : list string := map step (steps t).

Definition healing_pattern (t : Trace) : option string :=
  list_find (fun s => step s = "self_healing") (steps t) ≫= fun '(_, s) =>
    match result s with
    | RHealing r => Some (SelfHealingPatterns.pattern r)
    | _ => None
    end.

End SelfImprovementProtocol.

(* ===================================================================== *)
(** ** Vocabulary of the properties, and the inputs the examples use *)
(* ===================================================================== *)

Import MultiAgentVerifier SelfImprovementProtocol.

(** [k] occurs in [s]: some text before it and some text after it. *)
Definition occurs (k s : string) : Prop :=
  ∃ pre post, s = pre +:+ k +:+ post.

(** The kind of a change: its ["type"] entry, [""] when it has none. *)
Definition kind (change : Change) : string := default "" (change_type change).

(** The agents [verify_change] hands the change to, in registration order. *)
Definition applicable (v : Verifier) (change : Change) : list Agent :=
  filter (fun agent => _can_verify agent change = true) (agents v).

(** Every check the agent owns returns, and passes. *)
Definition checks_all_pass (m : CheckMethods) (agent : Agent) (change : Change) : bool :=
  forallb (fun c => match _perform_check m c change with
                    | Ok r => passed r
                    | Raise _ => false
                    end)
          (_determine_checks agent change).

(** The check results of one agent, in check order. *)
Definition check_outcomes (m : CheckMethods) (change : Change) (checks : list string)
  : Result (list (string * CheckResult)) :=
  mapM (fun c => r ← _perform_check m c change; Ok (c, r)) checks.

(** The verifier as [SelfImprovementProtocol.__init__] leaves it. *)
Definition default_verifier : Verifier :=
  _setup_verification_agents (MultiAgentVerifier.init builtin_checks).

(** The first change of [demonstrate_multi_agent_verification]. *)
Definition code_security_change : Change :=
  {| change_type := Some "code_security";
     change_body := [("file", [Lit "auth_handler.py"]);
                     ("description", [Lit "Updated authentication logic"]);
                     ("diff", [Lit "+def authenticate(username, password):"])] |}.

(** The change [improve_documentation] hands to the verifier. *)
Definition documentation_change : Change :=
  {| change_type := Some "documentation";
     change_body := [("original", [Lit "docs/api.md"]);
                     ("improved", [Lit "docs/api_improved.md"])] |}.

(** The failure of [main]: a timeout reported by the MCP server. *)
Definition mcp_failure : Failure :=
  {| type := MCP_ERROR;
     description := "Connection timeout to MCP server";
     context := <["error_type" := VStr "timeout"]>
                (<["traceback" := VStr "TimeoutError: Connection timed out after 30s"]>
                 (<["target" := VStr "mcp_connect"]> ∅));
     timestamp := 0;
     resolved := false;
     resolution := None |}.

(** A verifier with one agent whose capabilities name no check family, and
    a change it is applicable to. *)
Definition style_verifier : Verifier :=
  register_agent "style_agent" ["syntax"; "style"] (MultiAgentVerifier.init builtin_checks).

Definition style_change : Change :=
  {| change_type := Some "style_cleanup"; change_body := [("file", [Lit "utils.py"])] |}.

(** The agent's capabilities name none of the three check families. *)
Definition no_check_family (agent : Agent) : Prop :=
  ("code" ∉ capabilities agent) ∧
  ("security" ∉ capabilities agent) ∧
  ("performance" ∉ capabilities agent).

(** Some check of some applicable agent raises. *)
Definition some_check_raises (v : Verifier) (change : Change) : Prop :=
  ∃ agent check, agent ∈ applicable v change ∧
                 check ∈ _determine_checks agent change ∧
                 is_ok (_perform_check (methods v) check change) = false.

(** The names of the pattern catalog. *)
Definition catalog : list string :=
  [ "connection_retry"; "circuit_breaker"; "fallback";
    "cache_recovery"; "rate_limiter"; "health_check" ].

(** The change a fix hands to the verifier: its ["code_changes"] entry when
    that is a non-empty dict. *)
Definition diagnosed_change (fx : MCPDebugger.Fix) : option Change :=
  match MCPDebugger.code_changes fx with
  | Some change => if change_truthy change then Some change else None
  | None => None
  end.

(** [o is not None]. *)
Definition present {A} (o : option A) : bool :=
  match o with Some _ => true | None => false end.

(** The step names of a run with or without its two optional steps. *)
Definition expected_steps (verify healing : bool) : list string :=
  ["debug"] ++ (if verify then ["verify"] else []) ++ ["regression_test"] ++
  (if healing then ["self_healing"] else []) ++ ["evaluation"].

(** What the selector gives on a context. *)
Definition selected (ctx : gmap string PyVal) : Result (option string) :=
  match default (VStr "") (ctx !! "error_type") with
  | VStr error_type => Ok (select error_type)
  | _ => Raise (AttributeError "object has no attribute 'lower'")
  end.

(** The orchestrator as [__init__] builds it, its debugger without fixes. *)
Definition default_protocol : Protocol (list MCPDebugger.Fix) :=
  SelfImprovementProtocol.init [].

(** A digest for the examples: on every input, the hexadecimal digest the
    repository's regression test of [mcp_failure] is named after. *)
Definition sample_hexdigest (s : string) : string :=
  "5395b228a1f0c4e29d3b7a6e8c1f4d02".

(** A failure with the context of [mcp_failure], of another type. *)
Definition runtime_failure : Failure :=
  {| type := RUNTIME_ERROR;
     description := "Worker stopped answering";
     context := context mcp_failure;
     timestamp := 1;
     resolved := false;
     resolution := None |}.

(** A failure whose error type matches no rule. *)
Definition unknown_failure : Failure :=
  {| type := VALIDATION_ERROR;
     description := "Unexpected payload";
     context := <["error_type" := VStr "unknown_thing"]> ∅;
     timestamp := 2;
     resolved := false;
     resolution := None |}.

(** A debugger that reports the failure and proposes no change. *)
Definition reporting_debugger : DebugMethod unit :=
  fun d failure =>
    Ok ({| MCPDebugger.issue := [Lit (description failure)];
           MCPDebugger.solution := "Reported";
           MCPDebugger.code_changes := None |}, (d, failure)).

(** The entry of the context under [key] is a string, when there is one. *)
Definition str_or_absent (ctx : gmap string PyVal) (key : string) : Prop :=
  ∀ v, ctx !! key = Some v → ∃ s, v = VStr s.

(* ===================================================================== *)
(** ** Further vocabulary *)
(* ===================================================================== *)

(** The verdict of a call, without the verifier it leaves. *)
Definition verdict_of (r : Result (Verdict * Verifier)) : Result Verdict :=
  match r with
  | Ok (verdict, _) => Ok verdict
  | Raise e => Raise e
  end.

(** The check methods [m] with another default check. *)
Definition with_default_check (m : CheckMethods)
  (d : Change → Result CheckResult) : CheckMethods := {|
  _check_syntax := _check_syntax m;
  _check_style := _check_style m;
  _check_complexity := _check_complexity m;
  _check_vulnerabilities := _check_vulnerabilities m;
  _check_permissions := _check_permissions m;
  _check_efficiency := _check_efficiency m;
  _check_memory_usage := _check_memory_usage m;
  _default_check := d
|}.

(** The verifier [v] with other check methods. *)
Definition with_methods (v : Verifier) (m : CheckMethods) : Verifier :=
  {| methods := m; agents := agents v; verification_results := verification_results v |}.

(** The names of the checks [_perform_check] has a method for. *)
Definition check_names : list string :=
  [ "syntax"; "style"; "complexity"; "vulnerabilities"; "permissions";
    "efficiency"; "memory_usage" ].

(** The verify step of a run, when the fix carries a change. *)
Definition verify_steps (vrf : Verifier) (fx : MCPDebugger.Fix) : list Step :=
  match diagnosed_change fx with
  | Some change =>
      match verify_change vrf change with
      | Ok (verdict, _) => [mkStep "verify" (RVerify verdict)]
      | Raise _ => []
      end
  | None => []
  end.

(** The self-healing step of a run, when a pattern is selected. *)
Definition healing_steps (pat : option string) (tgt : PyVal) : list Step :=
  match pat with
  | Some p =>
      match SelfHealingPatterns.lookup_pattern p SelfHealingPatterns.patterns with
      | Some f =>
          [mkStep "self_healing"
             (RHealing (SelfHealingPatterns.mkApplied p tgt
                          (SelfHealingPatterns.call_pattern f tgt)))]
      | None => []
      end
  | None => []
  end.


(** The verdict on a change no agent is applicable to. *)
Definition vacuous_verdict : Verdict :=
  {| verified := true; agent_count := 0; issues := []; confidence := 0 |}.

(** The issues the checks of one agent give: an entry for each check
    that returns without passing, in the order of its checks. *)
Definition failed_checks (m : CheckMethods) (change : Change) (agent : Agent)
  : list Issue :=
  flat_map (fun check =>
              match _perform_check m check change with
              | Ok cr => if passed cr then []
                         else [mkIssue (id agent) check (details cr)]
              | Raise _ => []
              end)
           (_determine_checks agent change).

(** The pattern applications the steps of a trace hold. *)
Definition applied_of (ss : list Step) : list SelfHealingPatterns.Applied :=
  flat_map (fun s => match result s with RHealing r => [r] | _ => [] end) ss.

(** The lines of a traceback that hold ["Error:"]. *)
Definition error_lines (stack_trace : string) : list string :=
  filter (fun line => is_substring "Error:" line = true) (split_lines stack_trace).

(* ===================================================================== *)
(** ** ToolDiscovery *)
(* ===================================================================== *)

(** The exceptions of the dict and attribute lookups and of the file
    writes below; the outcome of a call that may raise one is a sum, the
    exception on the left. [WriteError] is what [mkdir] or [open] raise on
    a path they refuse: an [OSError], or a [ValueError] for a NUL byte. *)
Inductive LookupExn : Type :=
| KeyError (key : string)
| TypeError (msg : string)
| NoAttribute (attr : string)
| WriteError (path : string).

Module ToolDiscovery.

(** A value of a tool description: a string or a list of strings. *)
Inductive Field : Type :=
| FStr (s : string)
| FList (items : list string).

(** A tool description, a dict in insertion order. *)
Definition ToolInfo : Type := list (string * Field).

(** [tool_info[key]], [None] when the key is missing. *)
Fixpoint info_get (key : string) (info : ToolInfo) : option Field :=
  match info with
  | [] => None
  | (k, f) :: info' => if String.eqb k key then Some f else info_get key info'
  end.

(** The generated integration module: the name its class is titled after
    and the description spliced into it. *)
Record IntegrationCode : Type := mkIntegrationCode {
  class_of : string;
  tool_info_of : ToolInfo
}.

(** The tools in memory, the content of [tool_registry.json] when the file
    exists, and the integration files written. *)
Record Discovery : Type := mkDiscovery {
  available_tools : gmap string ToolInfo;
  tool_registry : option (gmap string ToolInfo);
  integration_files : gmap string IntegrationCode
}.

(** [__init__] with [_load_registry], on a disk that holds [registry]. *)
Definition init (registry : option (gmap string ToolInfo)) : Discovery :=
  {| available_tools := default ∅ registry;
     tool_registry := registry;
     integration_files := ∅ |}.

Definition _discover_from_api (tool_name : string) : ToolInfo :=
  [ ("name", FStr tool_name);
    ("version", FStr "1.0.0");
    ("description", FStr ("API-discovered tool for " +:+ tool_name));
    ("endpoint", FStr ("/api/tools/" +:+ tool_name));
    ("methods", FList ["execute"; "validate"; "configure"]) ].

Definition _discover_from_context7 (tool_name : string) : ToolInfo :=
  [ ("name", FStr tool_name);
    ("version", FStr "1.0.0");
    ("description", FStr ("Context7-discovered tool for " +:+ tool_name));
    ("implementation", FStr "context7");
    ("capabilities", FList ["process"; "analyze"; "transform"]) ].

Definition _discover_from_docs (tool_name : string) : ToolInfo :=
  [ ("name", FStr tool_name);
    ("version", FStr "1.0.0");
    ("description", FStr ("Documentation-based tool for " +:+ tool_name));
    ("usage", FStr (tool_name +:+ "(input, options)"));
    ("examples", FList ["example1"; "example2"]) ].

(** [discover_tool]: the description found is stored under the tool's name
    and the registry file rewritten from the tools in memory. *)
Definition discover_tool (tool_name source : string) (d : Discovery)
  : ToolInfo * Discovery :=
  let tool_info :=
    if String.eqb source "api" then _discover_from_api tool_name
    else if String.eqb source "context7" then _discover_from_context7 tool_name
    else _discover_from_docs tool_name in
  match tool_info with
  | [] => (tool_info, d)
  | _ :: _ =>
      let tools := <[tool_name := tool_info]> (available_tools d) in
      (tool_info,
       {| available_tools := tools;
          tool_registry := Some tools;
          integration_files := integration_files d |})
  end.




End ToolDiscovery.






(* ===================================================================== *)
(** ** DocumentationTester *)
(* ===================================================================== *)

Module DocumentationTester.

(** The result of testing one code block:
    [{"index", "code", "success", "output", "error"}]. *)
Record BlockResult : Type := mkBlockResult {
  index : nat;
  code : string;
  success : bool;
  output : option string;
  error : option string
}.

(** What [_analyze_test_results] returns. *)
Record Analysis : Type := mkAnalysis {
  total_tests : nat;
  successful : nat;
  failed : nat;
  success_rate : Q;
  failures : list BlockResult
}.

Definition _analyze_test_results (results : list BlockResult) : Analysis :=
  let total := length results in
  let successful := length (filter (fun r => success r = true) results) in
  {| total_tests := total;
     successful := successful;
     failed := total - successful;
     success_rate := EvaluationFramework.ratio successful total;
     failures := filter (fun r => success r = false) results |}.

(** [_fix_code_example]; ["NameError" in error] raises on an error that
    is [None]. *)
Definition _fix_code_example (failure : BlockResult) : LookupExn + string :=
  match error failure with
  | None => inl (TypeError "argument of type 'NoneType' is not iterable")
  | Some err =>
      inr (if is_substring "NameError" err then
             if is_substring "numpy" err then
               "import numpy as np" +:+ String "010"%char (code failure)
             else if is_substring "pandas" err then
               "import pandas as pd" +:+ String "010"%char (code failure)
             else code failure
           else if is_substring "ImportError" err then
             "# Fixed import" +:+ String "010"%char (code failure)
           else code failure)
  end.

End DocumentationTester.

(** The test [_run_evaluation] builds for a failure passes: the context
    holds an ["expected_result"] equal to [{"success": True}]. *)
Definition expects_success (failure : Failure) : bool :=
  eq_success_true (default (VStr "test_output") (context failure !! "expected_result")).


(** The number of test cases of a suite that pass: what [_execute_test]
    gives on the input equals the expected output. *)
Definition passing (test_cases : list EvaluationFramework.TestCase) : nat :=
  length (filter (fun tc => py_eq (EvaluationFramework._execute_test
                                     (EvaluationFramework.input_data tc))
                                  (EvaluationFramework.expected_output tc) = true)
                 test_cases).

(* ===================================================================== *)
(** * Properties *)
(* ===================================================================== *)


(** ** Strings *)

Lemma append_cons (c : ascii) (a b : string) :
  String c a +:+ b = String c (a +:+ b).
Proof. reflexivity. Qed.

Lemma append_nil (b : string) : "" +:+ b = b.
Proof. reflexivity. Qed.

Lemma prefix_split (k s : string) :
  String.prefix k s = true ↔ ∃ post, s = k +:+ post.
Proof.
  revert s. induction k as [|a k IH]; intros s; simpl.
  - destruct s; split; eauto.
  - destruct s as [|b s]; simpl.
    + split; [discriminate | intros [post H]; discriminate].
    + destruct (ascii_dec a b) as [->|Hne].
      * rewrite IH. split; intros [post H]; exists post;
          rewrite append_cons in *; congruence.
      * split; [discriminate | intros [post H]; rewrite append_cons in H; congruence].
Qed.

Lemma is_substring_occurs (k s : string) :
  is_substring k s = true ↔ occurs k s.
Proof.
  unfold occurs. induction s as [|c s IH].
  - unfold is_substring. rewrite orb_false_r, prefix_split. split.
    + intros [post H]. exists "", post. done.
    + intros ([|? ?] & post & H); [eauto | discriminate].
  - change (is_substring k (String c s))
      with (String.prefix k (String c s) || is_substring k s).
    rewrite orb_true_iff, IH, prefix_split. split.
    + intros [[post H] | (pre & post & H)].
      * exists "", post. done.
      * exists (String c pre), post. rewrite append_cons. by rewrite H.
    + intros ([|c' pre] & post & H).
      * left. eauto.
      * right. exists pre, post. rewrite append_cons in H. congruence.
Qed.

Lemma is_substring_not_occurs (k s : string) :
  is_substring k s = false ↔ ¬ occurs k s.
Proof.
  rewrite <- is_substring_occurs. destruct (is_substring k s); split; congruence.
Qed.

(** ** The pattern selector *)

Lemma first_match_Some (rules : list (string * string)) (e p : string) :
  first_match rules e = Some p ↔
  ∃ i key, rules !! i = Some (key, p) ∧ occurs key (lower e) ∧
           ∀ j key' p', j < i → rules !! j = Some (key', p') → ¬ occurs key' (lower e).
Proof.
  induction rules as [|[key0 p0] rules IH]; simpl.
  - split; [discriminate | intros (i & key & H & _); discriminate].
  - destruct (is_substring key0 (lower e)) eqn:Hk.
    + split.
      * intros [= <-]. exists 0, key0. split; [done|]. split.
        -- by apply is_substring_occurs.
        -- intros j ? ? Hj. lia.
      * intros (i & key & Hi & Hocc & Hfirst). destruct i as [|i].
        -- simpl in Hi. congruence.
        -- exfalso. apply (Hfirst 0 key0 p0); [lia | done |].
           by apply is_substring_occurs.
    + rewrite IH. split.
      * intros (i & key & Hi & Hocc & Hfirst). exists (S i), key.
        split; [done|]. split; [done|].
        intros [|j] key' p' Hj Hl; simpl in Hl.
        -- injection Hl as <- <-. by apply is_substring_not_occurs.
        -- apply (Hfirst j key' p'); [lia | done].
      * intros (i & key & Hi & Hocc & Hfirst). destruct i as [|i]; simpl in Hi.
        -- injection Hi as <- <-. apply is_substring_not_occurs in Hk. done.
        -- exists i, key. split; [done|]. split; [done|].
           intros j key' p' Hj Hl. apply (Hfirst (S j) key' p'); [lia | done].
Qed.

Lemma first_match_None (rules : list (string * string)) (e : string) :
  first_match rules e = None ↔
  ∀ key p, (key, p) ∈ rules → ¬ occurs key (lower e).
Proof.
  induction rules as [|[key0 p0] rules IH]; simpl.
  - split; [intros _ key p H; inversion H | done].
  - destruct (is_substring key0 (lower e)) eqn:Hk.
    + split; [discriminate|]. intros H. exfalso.
      apply (H key0 p0); [left | by apply is_substring_occurs].
    + rewrite IH. split.
      * intros H key p Hin. apply elem_of_cons in Hin as [[= -> ->] | Hin].
        -- by apply is_substring_not_occurs.
        -- by apply (H key p).
      * intros H key p Hin. apply (H key p). by right.
Qed.

(** C4. [_determine_healing_pattern] reads the error type from the context
    and walks the five rules connection, timeout, rate_limit,
    service_unavailable, cache_miss in that order over the lowercased
    error type: it returns the pattern of the first rule whose key occurs
    in it and [None] when no key occurs; ["connection_timeout"] selects
    [connection_retry] and ["rate_limit_exceeded"] selects [rate_limiter]. *)
Theorem determine_healing_pattern_first_rule (error_type : string) :
  pattern_map = [ ("connection", "connection_retry"); ("timeout", "circuit_breaker");
                  ("rate_limit", "rate_limiter"); ("service_unavailable", "fallback");
                  ("cache_miss", "cache_recovery") ] ∧
  (∀ failure, context failure !! "error_type" = Some (VStr error_type) →
     _determine_healing_pattern failure = Ok (select error_type)) ∧
  (∀ p, select error_type = Some p ↔
     ∃ i key, pattern_map !! i = Some (key, p) ∧ occurs key (lower error_type) ∧
       ∀ j key' p', j < i → pattern_map !! j = Some (key', p') →
                    ¬ occurs key' (lower error_type)) ∧
  (select error_type = None ↔
     ∀ key p, (key, p) ∈ pattern_map → ¬ occurs key (lower error_type)) ∧
  select "connection_timeout" = Some "connection_retry" ∧
  select "Connection_Timeout" = Some "connection_retry" ∧
  select "rate_limit_exceeded" = Some "rate_limiter".
Proof.
  split; [reflexivity|]. split.
  { intros failure H. unfold _determine_healing_pattern, context_get. by rewrite H. }
  split; [intros p; apply first_match_Some|].
  split; [apply first_match_None|].
  repeat split; vm_compute; reflexivity.
Qed.

(** ** The error monad *)

Lemma bind_Ok {A B} (m : Result A) (f : A → Result B) (b : B) :
  m ≫= f = Ok b ↔ ∃ a, m = Ok a ∧ f a = Ok b.
Proof.
  destruct m as [a|e]; simpl; split.
  - eauto.
  - by intros (a' & [= ->] & H).
  - discriminate.
  - by intros (a' & [=] & _).
Qed.

Lemma is_ok_true {A} (r : Result A) : is_ok r = true ↔ ∃ a, r = Ok a.
Proof.
  destruct r; simpl; split; eauto; try discriminate. by intros [? [=]].
Qed.

Lemma mapM_Ok {A B} (f : A → Result B) (xs : list A) (ys : list B) :
  mapM f xs = Ok ys ↔ Forall2 (fun x y => f x = Ok y) xs ys.
Proof.
  revert ys. induction xs as [|x xs IH]; intros ys; simpl.
  - split; [intros [= <-]; constructor | by inversion 1].
  - split.
    + intros (y & Hy & (ys' & Hys & [= <-])%bind_Ok)%bind_Ok.
      constructor; [done | by apply IH].
    + inversion 1 as [|? y ? ys' Hy Hys]; subst.
      apply bind_Ok. exists y. split; [done|].
      apply bind_Ok. exists ys'. split; [by apply IH | done].
Qed.

Lemma mapM_Raise {A B} (f : A → Result B) (xs : list A) :
  (∃ x, x ∈ xs ∧ is_ok (f x) = false) ↔ ∃ e, mapM f xs = Raise e.
Proof.
  induction xs as [|x xs IH]; simpl.
  - split; [by intros (x & ?%elem_of_nil & _) | by intros [e [=]]].
  - destruct (f x) as [y|e] eqn:Hx; simpl.
    + destruct (mapM f xs) as [ys|e'] eqn:Hxs; simpl.
      * split; [|by intros [e [=]]].
        intros (x' & [-> | Hin]%elem_of_cons & Hr).
        -- by rewrite Hx in Hr.
        -- destruct IH as [IH _]. destruct IH as [e [=]]. eauto.
      * split; [eauto|]. intros _. destruct IH as [_ IH].
        destruct IH as (x' & Hin & Hr); [eauto|].
        exists x'. split; [by right | done].
    + split; [eauto|]. intros _. exists x. split; [by left | by rewrite Hx].
Qed.

Lemma mapM_Raise_from {A B} (f : A → Result B) (xs : list A) (e : PyExn) :
  mapM f xs = Raise e → ∃ x, x ∈ xs ∧ f x = Raise e.
Proof.
  induction xs as [|x xs IH]; simpl; [discriminate|].
  destruct (f x) as [y|e'] eqn:Hx; simpl.
  - destruct (mapM f xs) as [ys|e''] eqn:Hxs; simpl; [discriminate|].
    intros [= ->]. destruct IH as (x' & Hin & Hr); [done|].
    exists x'. split; [by right | done].
  - intros [= ->]. exists x. split; [by left | done].
Qed.

(** ** The verification engine *)

Lemma mem_elem_of (x : string) (xs : list string) : mem x xs = true ↔ x ∈ xs.
Proof.
  unfold mem. rewrite existsb_exists. split.
  - intros (y & Hin & ->%String.eqb_eq). by apply list_elem_of_In.
  - intros Hin. exists x. split; [by apply list_elem_of_In | apply String.eqb_refl].
Qed.

Lemma determine_checks_NoDup (agent : Agent) (change : Change) :
  NoDup (_determine_checks agent change).
Proof.
  unfold _determine_checks.
  destruct (mem "code" _), (mem "security" _), (mem "performance" _);
    simpl; apply NoDup_ListNoDup; repeat constructor; simpl; intuition discriminate.
Qed.

Lemma dict_set_fresh {V} (k : string) (v : V) (d : list (string * V)) :
  k ∉ map fst d → dict_set k v d = d ++ [(k, v)].
Proof.
  induction d as [|[k' v'] d IH]; simpl; [done|].
  intros Hk. apply not_elem_of_cons in Hk as [Hne Hk].
  destruct (String.eqb_spec k' k) as [->|_]; [done|]. by rewrite IH.
Qed.

Lemma run_checks_fresh (m : CheckMethods) (change : Change)
  (checks : list string) (acc : list (string * CheckResult)) :
  NoDup (map fst acc ++ checks) →
  run_checks m change checks acc =
  (rs ← check_outcomes m change checks; Ok (acc ++ rs)).
Proof.
  unfold check_outcomes.
  revert acc. induction checks as [|c checks IH]; intros acc Hnd; simpl.
  - by rewrite app_nil_r.
  - apply NoDup_app in Hnd as (Hacc & Hdisj & Hcs).
    apply NoDup_cons in Hcs as [Hc Hcs].
    destruct (_perform_check m c change) as [r|e]; simpl; [|done].
    rewrite dict_set_fresh by (intros Hin; apply (Hdisj c Hin); left).
    rewrite IH.
    + destruct (mapM _ checks); simpl; [|done].
      by rewrite <- app_assoc.
    + rewrite map_app, <- app_assoc. simpl.
      apply NoDup_app. split; [done|]. split.
      * intros x Hx [-> | Hin]%elem_of_cons; [|by apply (Hdisj x Hx); right].
        by apply (Hdisj c Hx); left.
      * by apply NoDup_cons.
Qed.

Lemma execute_verification_outcomes (m : CheckMethods) (agent : Agent) (change : Change) :
  _execute_verification m (_create_verification_task agent change) =
  (rs ← check_outcomes m change (_determine_checks agent change);
   Ok (mkAgentResult (id agent) rs (forallb (fun kv => passed (snd kv)) rs))).
Proof.
  unfold _execute_verification, _create_verification_task. simpl.
  rewrite run_checks_fresh by (simpl; apply determine_checks_NoDup).
  by destruct (check_outcomes _ _ _).
Qed.

Lemma check_outcomes_passed (m : CheckMethods) (change : Change)
  (checks : list string) (rs : list (string * CheckResult)) :
  check_outcomes m change checks = Ok rs →
  map fst rs = checks ∧
  forallb (fun kv => passed (snd kv)) rs =
  forallb (fun c => match _perform_check m c change with
                    | Ok r => passed r
                    | Raise _ => false
                    end) checks.
Proof.
  unfold check_outcomes. revert rs.
  induction checks as [|c checks IH]; intros rs; simpl.
  - by intros [= <-].
  - destruct (_perform_check m c change) as [r|e]; simpl; [|discriminate].
    destruct (mapM _ checks) as [rs'|e]; simpl; [|discriminate].
    intros [= <-]. destruct (IH rs' eq_refl) as [H1 H2]. simpl.
    by rewrite H1, H2.
Qed.

Lemma execute_verification_overall (m : CheckMethods) (agent : Agent) (change : Change)
  (r : AgentResult) :
  _execute_verification m (_create_verification_task agent change) = Ok r →
  agent_id r = id agent ∧
  map fst (results r) = _determine_checks agent change ∧
  overall r = checks_all_pass m agent change.
Proof.
  rewrite execute_verification_outcomes.
  intros (rs & Hrs & [= <-])%bind_Ok. simpl.
  by destruct (check_outcomes_passed _ _ _ _ Hrs) as [-> ->].
Qed.

(** What a call that returns has computed: one result per applicable
    agent, in registration order, each the agent's own. *)
Lemma verify_change_Ok (v : Verifier) (change : Change) (verdict : Verdict) (v' : Verifier) :
  verify_change v change = Ok (verdict, v') ↔
  ∃ rs, Forall2 (fun agent r =>
                   _execute_verification (methods v)
                     (_create_verification_task agent change) = Ok r)
                (applicable v change) rs ∧
        verdict = _aggregate_results rs ∧
        v' = {| methods := methods v; agents := agents v;
                verification_results :=
                  verification_results v ++ [mkLogEntry change rs verdict] |}.
Proof.
  unfold verify_change, applicable. rewrite bind_Ok. split.
  - intros (rs & Hrs & [= <- <-]). exists rs. split; [|done].
    apply mapM_Ok in Hrs. by apply Forall2_fmap_l in Hrs.
  - intros (rs & Hrs & -> & ->). exists rs. split; [|done].
    apply mapM_Ok. by apply Forall2_fmap_l.
Qed.

Lemma verify_change_no_applicable (v : Verifier) (change : Change) :
  applicable v change = [] →
  verify_change v change =
  Ok ({| verified := true; agent_count := 0; issues := []; confidence := 0 |},
      {| methods := methods v; agents := agents v;
         verification_results :=
           verification_results v ++
           [mkLogEntry change []
              {| verified := true; agent_count := 0; issues := []; confidence := 0 |}] |}).
Proof.
  intros Hnone. apply verify_change_Ok. exists []. rewrite Hnone.
  split; [constructor | done].
Qed.

(** C1. With the agents [__init__] registers, no agent is applicable to the
    change [improve_documentation] builds; the verdict has [agent_count = 0]
    and [confidence = 0], and its [verified] entry is [True]. *)
Theorem verify_change_documentation_unverified :
  applicable default_verifier documentation_change = [] ∧
  ∃ verdict v', verify_change default_verifier documentation_change = Ok (verdict, v') ∧
                agent_count verdict = 0 ∧
                (confidence verdict == 0)%Q ∧
                verified verdict = true.
Proof.
  assert (Hnone : applicable default_verifier documentation_change = [])
    by (vm_compute; reflexivity).
  split; [done|].
  eexists _, _. split; [by apply verify_change_no_applicable|].
  simpl. repeat split; reflexivity.
Qed.

Lemma forallb_filter_length {A} (p : A → bool) (xs : list A) :
  forallb p xs = true ↔ length (filter (fun x => p x = true) xs) = length xs.
Proof.
  induction xs as [|x xs IH]; [done|].
  pose proof (length_filter (fun x => p x = true) xs) as Hle.
  rewrite filter_cons. cbn [forallb length].
  destruct (decide (p x = true)) as [Hp|Hp].
  - rewrite Hp. cbn [andb length]. rewrite IH. lia.
  - apply not_true_is_false in Hp. rewrite Hp. cbn [andb].
    split; [discriminate | lia].
Qed.

Lemma ratio_one (k n : nat) :
  0 < n → (Z.of_nat k # Pos.of_nat n == 1)%Q ↔ k = n.
Proof.
  intros Hn. unfold Qeq. simpl.
  assert (Z.pos (Pos.of_nat n) = Z.of_nat n) as ->.
  { rewrite <- positive_nat_Z, Nat2Pos.id by lia. done. }
  lia.
Qed.

Lemma passing_count (m : CheckMethods) (change : Change)
  (ags : list Agent) (rs : list AgentResult) :
  Forall2 (fun agent r =>
             _execute_verification m (_create_verification_task agent change) = Ok r)
          ags rs →
  length rs = length ags ∧
  length (filter (fun r => overall r = true) rs) =
  length (filter (fun agent => checks_all_pass m agent change = true) ags).
Proof.
  induction 1 as [|agent r ags rs Hr _ [IHlen IH]]; [done|].
  apply execute_verification_overall in Hr as (_ & _ & Hov).
  rewrite !filter_cons, Hov.
  destruct (decide (checks_all_pass m agent change = true)); simpl; lia.
Qed.

(** C3. When [verify_change] returns a verdict with [agent_count > 0], its
    confidence is the number of applicable agents whose checks all passed
    over [agent_count], and [verified] holds exactly when the confidence
    is 1. *)
Theorem verify_change_confidence (v : Verifier) (change : Change)
  (verdict : Verdict) (v' : Verifier) :
  verify_change v change = Ok (verdict, v') →
  0 < agent_count verdict →
  agent_count verdict = length (applicable v change) ∧
  (confidence verdict ==
   Z.of_nat (length (filter (fun agent => checks_all_pass (methods v) agent change = true)
                            (applicable v change)))
   # Pos.of_nat (agent_count verdict))%Q ∧
  (verified verdict = true ↔ (confidence verdict == 1)%Q).
Proof.
  intros (rs & Hrs & -> & _)%verify_change_Ok Hpos.
  apply passing_count in Hrs as [Hlen Hcount].
  destruct rs as [|r rs]; [simpl in Hpos; lia|].
  unfold _aggregate_results in *.
  cbn [verified agent_count confidence] in *.
  split; [done|]. split; [by rewrite Hcount|].
  rewrite forallb_filter_length, ratio_one by done. done.
Qed.

Lemma verify_change_confidence_witness :
  ∃ verdict v',
    verify_change default_verifier code_security_change = Ok (verdict, v') ∧
    agent_count verdict = 2 ∧
    (confidence verdict == 2 # 2)%Q ∧
    (verified verdict = true ↔ (confidence verdict == 1)%Q).
Proof.
  eexists _, _. split; [reflexivity|].
  destruct (verify_change_confidence default_verifier code_security_change _ _ eq_refl)
    as (Hn & Hc & Hv); [simpl; lia|].
  split; [reflexivity|]. split; [reflexivity | exact Hv].
Defined.

Lemma can_verify_occurs (agent : Agent) (change : Change) :
  _can_verify agent change = true ↔
  ∃ cap, cap ∈ capabilities agent ∧ occurs cap (kind change).
Proof.
  unfold _can_verify, kind. rewrite existsb_exists. split.
  - intros (cap & Hin & Hsub). exists cap.
    split; [by apply list_elem_of_In | by apply is_substring_occurs].
  - intros (cap & Hin & Hocc). exists cap.
    split; [by apply list_elem_of_In | by apply is_substring_occurs].
Qed.

(** C5. An agent is applicable to a change exactly when one of its
    capabilities occurs, letter case included, in the change's kind. For a
    change of kind ["code_security"] and the agents [__init__] registers,
    [code_agent] and [security_agent] are the applicable ones; when their
    five checks pass, the verdict counts 2 agents, has confidence 1, is
    verified and lists no issue. *)
Theorem can_verify_capability_substring (agent : Agent) (change : Change) :
  (_can_verify agent change = true ↔
   ∃ cap, cap ∈ capabilities agent ∧ occurs cap (kind change)) ∧
  _can_verify (mkAgent "security_agent" ["Security"] "active") code_security_change = false ∧
  (∀ (m : CheckMethods) (log : list LogEntry) (body : list (string * Text)),
     let v := {| methods := m; agents := agents default_verifier;
                 verification_results := log |} in
     let c := {| change_type := Some "code_security"; change_body := body |} in
     applicable v c =
       [ mkAgent "code_agent" ["code"; "syntax"; "style"] "active";
         mkAgent "security_agent" ["security"; "permissions"] "active" ] ∧
     ((∀ check, check ∈ ["syntax"; "style"; "complexity"; "vulnerabilities"; "permissions"] →
                ∃ r, _perform_check m check c = Ok r ∧ passed r = true) →
      ∃ verdict v', verify_change v c = Ok (verdict, v') ∧
                    agent_count verdict = 2 ∧
                    (confidence verdict == 1)%Q ∧
                    verified verdict = true ∧
                    issues verdict = [])) ∧
  ∃ v', verify_change default_verifier code_security_change =
        Ok ({| verified := true; agent_count := 2; issues := []; confidence := 2 # 2 |}, v').
Proof.
  split; [apply can_verify_occurs|].
  split; [vm_compute; reflexivity|].
  split; [|eexists; reflexivity].
  intros m log body v c.
  assert (Happ : applicable v c =
                 [ mkAgent "code_agent" ["code"; "syntax"; "style"] "active";
                   mkAgent "security_agent" ["security"; "permissions"] "active" ])
    by (vm_compute; reflexivity).
  split; [done|]. intros Hpass.
  destruct (Hpass "syntax") as (r1 & H1 & P1); [apply list_elem_of_In; simpl; tauto|].
  destruct (Hpass "style") as (r2 & H2 & P2); [apply list_elem_of_In; simpl; tauto|].
  destruct (Hpass "complexity") as (r3 & H3 & P3); [apply list_elem_of_In; simpl; tauto|].
  destruct (Hpass "vulnerabilities") as (r4 & H4 & P4); [apply list_elem_of_In; simpl; tauto|].
  destruct (Hpass "permissions") as (r5 & H5 & P5); [apply list_elem_of_In; simpl; tauto|].
  cbn in H1, H2, H3, H4, H5.
  eexists _, _. split.
  - apply verify_change_Ok.
    exists [ mkAgentResult "code_agent"
               [("syntax", r1); ("style", r2); ("complexity", r3)] true;
             mkAgentResult "security_agent"
               [("vulnerabilities", r4); ("permissions", r5)] true ].
    split; [|split; reflexivity].
    rewrite Happ. repeat constructor.
    + unfold _execute_verification, _create_verification_task, _determine_checks.
      cbn. rewrite H1. cbn. rewrite H2. cbn. rewrite H3. cbn.
      by rewrite P1, P2, P3.
    + unfold _execute_verification, _create_verification_task, _determine_checks.
      cbn. rewrite H4. cbn. rewrite H5. cbn.
      by rewrite P4, P5.
  - cbn. rewrite P1, P2, P3, P4, P5. repeat split; reflexivity.
Qed.

Lemma determine_checks_no_family (agent : Agent) (change : Change) :
  no_check_family agent → _determine_checks agent change = [].
Proof.
  intros (Hc & Hs & Hp). unfold _determine_checks.
  destruct (mem "code" _) eqn:E1; [by apply mem_elem_of in E1|].
  destruct (mem "security" _) eqn:E2; [by apply mem_elem_of in E2|].
  destruct (mem "performance" _) eqn:E3; [by apply mem_elem_of in E3|].
  done.
Qed.

Lemma execute_verification_no_family (m : CheckMethods) (agent : Agent) (change : Change) :
  no_check_family agent →
  _execute_verification m (_create_verification_task agent change) =
  Ok (mkAgentResult (id agent) [] true).
Proof.
  intros Hno. unfold _execute_verification, _create_verification_task. simpl.
  by rewrite determine_checks_no_family.
Qed.

Lemma Forall2_no_family (m : CheckMethods) (change : Change) (ags : list Agent) :
  Forall no_check_family ags →
  Forall2 (fun agent r =>
             _execute_verification m (_create_verification_task agent change) = Ok r)
          ags (map (fun agent => mkAgentResult (id agent) [] true) ags).
Proof.
  induction 1 as [|agent ags Hno _ IH]; simpl; constructor; [|done].
  by apply execute_verification_no_family.
Qed.

Lemma empty_results_overall (ags : list Agent) :
  forallb overall (map (fun agent => mkAgentResult (id agent) [] true) ags) = true.
Proof. induction ags as [|a ags IH]; [done | exact IH]. Qed.

Lemma empty_results_issues (ags : list Agent) :
  flat_map result_issues (map (fun agent => mkAgentResult (id agent) [] true) ags) = [].
Proof. induction ags as [|a ags IH]; [done | exact IH]. Qed.

Lemma aggregate_all_empty (ags : list Agent) :
  ags ≠ [] →
  let verdict := _aggregate_results (map (fun agent => mkAgentResult (id agent) [] true) ags) in
  verified verdict = true ∧ agent_count verdict = length ags ∧
  issues verdict = [] ∧ (confidence verdict == 1)%Q.
Proof.
  intros Hne. cbn zeta. unfold _aggregate_results.
  cbn [verified agent_count issues confidence].
  split; [apply empty_results_overall|].
  split; [apply length_map|].
  split; [apply empty_results_issues|].
  destruct ags as [|a ags]; [done|].
  pose proof (empty_results_overall (a :: ags)) as Hall.
  apply forallb_filter_length in Hall.
  cbn [map] in *. apply ratio_one; [simpl; lia | exact Hall].
Qed.

(** C9. An applicable agent whose capabilities name none of code, security
    and performance gets an empty check list and an overall result of
    [True]; a change matched only by such agents gets a verdict that is
    verified, with confidence 1. *)
Theorem verify_change_empty_checks_verified (v : Verifier) (change : Change) :
  applicable v change ≠ [] →
  (∀ agent, agent ∈ applicable v change → no_check_family agent) →
  (∀ agent, agent ∈ applicable v change →
     _determine_checks agent change = [] ∧
     _execute_verification (methods v) (_create_verification_task agent change) =
       Ok (mkAgentResult (id agent) [] true)) ∧
  ∃ verdict v', verify_change v change = Ok (verdict, v') ∧
                verified verdict = true ∧
                (confidence verdict == 1)%Q ∧
                agent_count verdict = length (applicable v change) ∧
                issues verdict = [].
Proof.
  intros Hne Hall. split.
  - intros agent Hin. split.
    + by apply determine_checks_no_family, Hall.
    + by apply execute_verification_no_family, Hall.
  - destruct (aggregate_all_empty (applicable v change) Hne) as (Hv & Hn & Hi & Hc).
    eexists _, _. split.
    + apply verify_change_Ok. eexists. split; [|split; reflexivity].
      apply Forall2_no_family. by apply Forall_forall.
    + done.
Qed.

Lemma verify_change_empty_checks_verified_witness :
  applicable style_verifier style_change =
    [mkAgent "style_agent" ["syntax"; "style"] "active"] ∧
  ∃ verdict v', verify_change style_verifier style_change = Ok (verdict, v') ∧
                verified verdict = true ∧
                (confidence verdict == 1)%Q ∧
                agent_count verdict = length (applicable style_verifier style_change) ∧
                issues verdict = [].
Proof.
  split; [vm_compute; reflexivity|].
  apply (verify_change_empty_checks_verified style_verifier style_change).
  - vm_compute. discriminate.
  - intros agent Hin.
    assert (agent = mkAgent "style_agent" ["syntax"; "style"] "active") as ->.
    { revert Hin. vm_compute. intros Hin. by apply list_elem_of_singleton in Hin. }
    unfold no_check_family. simpl.
    repeat split; intros Hin'; apply list_elem_of_In in Hin'; simpl in Hin';
      intuition discriminate.
Defined.

Lemma check_outcomes_raise (m : CheckMethods) (change : Change) (checks : list string) :
  (∃ check, check ∈ checks ∧ is_ok (_perform_check m check change) = false) ↔
  ∃ e, check_outcomes m change checks = Raise e.
Proof.
  unfold check_outcomes. rewrite <- mapM_Raise.
  split; intros (c & Hin & Hr); exists c; (split; [done|]);
    by destruct (_perform_check m c change).
Qed.

Lemma execute_verification_raise (m : CheckMethods) (agent : Agent) (change : Change) :
  (∃ check, check ∈ _determine_checks agent change ∧
            is_ok (_perform_check m check change) = false) ↔
  is_ok (_execute_verification m (_create_verification_task agent change)) = false.
Proof.
  rewrite execute_verification_outcomes, check_outcomes_raise.
  destruct (check_outcomes _ _ _) as [rs|e]; simpl; split; eauto.
  - by intros [e [=]].
  - discriminate.
Qed.

Lemma execute_verification_raise_from (m : CheckMethods) (agent : Agent) (change : Change)
  (e : PyExn) :
  _execute_verification m (_create_verification_task agent change) = Raise e →
  ∃ check, check ∈ _determine_checks agent change ∧ _perform_check m check change = Raise e.
Proof.
  rewrite execute_verification_outcomes.
  destruct (check_outcomes _ _ _) as [rs|e'] eqn:Hout; simpl; [discriminate|].
  intros [= ->]. apply mapM_Raise_from in Hout as (c & Hin & Hr).
  exists c. split; [done|].
  destruct (_perform_check m c change); simpl in Hr; congruence.
Qed.

Lemma verify_change_raise (v : Verifier) (change : Change) :
  some_check_raises v change ↔ ∃ e, verify_change v change = Raise e.
Proof.
  unfold some_check_raises, verify_change.
  set (tasks := map _ _).
  assert (Htasks : (∃ t, t ∈ tasks ∧ is_ok (_execute_verification (methods v) t) = false) ↔
                   ∃ agent, agent ∈ applicable v change ∧
                     is_ok (_execute_verification (methods v)
                              (_create_verification_task agent change)) = false).
  { subst tasks. split.
    - intros (t & (agent & -> & Hin)%list_elem_of_fmap & Hr). eauto.
    - intros (agent & Hin & Hr). eexists. split; [|exact Hr].
      apply list_elem_of_fmap. eauto. }
  rewrite mapM_Raise in Htasks. split.
  - intros (agent & check & Hin & Hc & Hr).
    destruct Htasks as [_ [e He]].
    + exists agent. split; [done|]. apply execute_verification_raise. eauto.
    + exists e. by rewrite He.
  - intros [e He].
    destruct (mapM _ tasks) as [rs|e'] eqn:Hm; [discriminate|].
    destruct Htasks as [(agent & Hin & Hr) _]; [eauto|].
    apply execute_verification_raise in Hr as (check & Hc & Hr). eauto.
Qed.

(** [verify_change] has no error handling. Under check methods of which
    one raises, the call raises an error that a check of an applicable
    agent raised, and returns no verdict and records nothing. When it
    returns, it records one result per applicable agent, in registration
    order, and each is what that agent's own checks give on the change,
    whatever the other agents are. *)
Theorem verify_change_raise_propagates (v : Verifier) (change : Change) :
  (some_check_raises v change ↔ ∃ e, verify_change v change = Raise e) ∧
  (∀ e, verify_change v change = Raise e →
        ∃ agent check, agent ∈ applicable v change ∧
                       check ∈ _determine_checks agent change ∧
                       _perform_check (methods v) check change = Raise e) ∧
  (∀ verdict v', verify_change v change = Ok (verdict, v') →
     ∃ rs, verification_results v' =
             verification_results v ++ [mkLogEntry change rs verdict] ∧
           Forall2 (fun agent r =>
                      _execute_verification (methods v)
                        (_create_verification_task agent change) = Ok r)
                   (applicable v change) rs).
Proof.
  split; [apply verify_change_raise|]. split.
  - intros e He. unfold verify_change in He.
    destruct (mapM _ _) as [rs|e'] eqn:Hm; [discriminate|].
    injection He as ->.
    apply mapM_Raise_from in Hm as (t & (agent & -> & Hin)%list_elem_of_fmap & Hr).
    apply execute_verification_raise_from in Hr as (check & Hc & Hr). eauto.
  - intros verdict v' (rs & Hrs & -> & ->)%verify_change_Ok. eauto.
Qed.

(** ** The pattern catalog *)

Lemma lookup_pattern_None (name : string) (d : list (string * SelfHealingPatterns.PatternFunc)) :
  SelfHealingPatterns.lookup_pattern name d = None ↔ name ∉ map fst d.
Proof.
  induction d as [|[k f] d IH]; simpl.
  - split; [intros _ H; inversion H | done].
  - destruct (String.eqb_spec k name) as [->|Hne].
    + split; [discriminate|]. intros H. exfalso. apply H. left.
    + rewrite IH, not_elem_of_cons. split; [by intros ? | by intros [_ ?]].
Qed.

Lemma apply_pattern_cases (applied : list SelfHealingPatterns.Applied)
  (name : string) (tgt : PyVal) :
  ((name ∉ catalog) ∧
   SelfHealingPatterns.apply_pattern applied name tgt =
     Raise (SelfHealingPatterns.unknown_pattern name)) ∨
  (name ∈ catalog ∧
   ∃ impl, SelfHealingPatterns.apply_pattern applied name tgt =
             Ok (SelfHealingPatterns.mkApplied name tgt impl,
                 applied ++ [SelfHealingPatterns.mkApplied name tgt impl])).
Proof.
  unfold SelfHealingPatterns.apply_pattern.
  destruct (SelfHealingPatterns.lookup_pattern name SelfHealingPatterns.patterns)
    as [f|] eqn:Hl.
  - right. split; [|eauto].
    destruct (decide (name ∈ catalog)) as [|Hn]; [done|].
    apply (lookup_pattern_None name SelfHealingPatterns.patterns) in Hn. congruence.
  - left. split; [|done].
    by apply (lookup_pattern_None name SelfHealingPatterns.patterns).
Qed.

(** C7. [apply_pattern] raises its unknown-pattern error exactly when the
    name is none of the six catalog names; for a catalog name it returns a
    result whose [pattern] is the name and whose [target] is the target. *)
Theorem apply_pattern_unknown_iff (applied : list SelfHealingPatterns.Applied)
  (name : string) (tgt : PyVal) :
  map fst SelfHealingPatterns.patterns =
    [ "connection_retry"; "circuit_breaker"; "fallback";
      "cache_recovery"; "rate_limiter"; "health_check" ] ∧
  (SelfHealingPatterns.apply_pattern applied name tgt =
     Raise (SelfHealingPatterns.unknown_pattern name) ↔ name ∉ catalog) ∧
  ((∃ e, SelfHealingPatterns.apply_pattern applied name tgt = Raise e) ↔ name ∉ catalog) ∧
  (name ∈ catalog →
   ∃ r, SelfHealingPatterns.apply_pattern applied name tgt = Ok (r, applied ++ [r]) ∧
        SelfHealingPatterns.pattern r = name ∧
        SelfHealingPatterns.target r = tgt).
Proof.
  split; [reflexivity|].
  destruct (apply_pattern_cases applied name tgt) as [[Hn ->] | [Hin [impl ->]]].
  - split; [done|]. split; [split; eauto|]. done.
  - split; [split; [discriminate | done]|].
    split; [split; [by intros [e [=]] | done]|].
    intros _. eexists. split; [reflexivity|]. done.
Qed.

Lemma first_match_range (rules : list (string * string)) (e p : string) :
  first_match rules e = Some p → p ∈ map snd rules.
Proof.
  induction rules as [|[key p0] rules IH]; simpl; [discriminate|].
  destruct (is_substring key (lower e)).
  - intros [= ->]. left.
  - intros H. right. by apply IH.
Qed.

Lemma select_in_catalog (e p : string) :
  select e = Some p → p ∈ catalog ∧ String.eqb p "" = false.
Proof.
  unfold select. intros H. apply first_match_range in H. simpl in H.
  repeat (apply elem_of_cons in H as [-> | H];
          [split; [apply list_elem_of_In; simpl; tauto | reflexivity]|]).
  by apply elem_of_nil in H.
Qed.

Lemma determine_healing_pattern_selected (failure : Failure) :
  _determine_healing_pattern failure = selected (context failure).
Proof. reflexivity. Qed.

Lemma determine_healing_pattern_Some (failure : Failure) (p : string) :
  _determine_healing_pattern failure = Ok (Some p) →
  p ∈ catalog ∧ String.eqb p "" = false.
Proof.
  unfold _determine_healing_pattern.
  destruct (context_get failure "error_type" (VStr "")); try discriminate.
  intros [= H]. by apply (select_in_catalog s).
Qed.

(** ** The pipeline *)

Lemma healing_stage_returns (failure : Failure) (p : string)
  (applied : list SelfHealingPatterns.Applied) (tgt : PyVal) :
  _determine_healing_pattern failure = Ok (Some p) →
  String.eqb p "" = false ∧
  ∃ impl, SelfHealingPatterns.apply_pattern applied p tgt =
            Ok (SelfHealingPatterns.mkApplied p tgt impl,
                applied ++ [SelfHealingPatterns.mkApplied p tgt impl]).
Proof.
  intros [Hin Hne]%determine_healing_pattern_Some. split; [done|].
  by destruct (apply_pattern_cases applied p tgt) as [[Hn _] | [_ H]].
Qed.

Section Pipeline.

Context {D : Type}.
Variable debug_failure : DebugMethod D.
Variable hexdigest : string → string.

Ltac run_stages H :=
  repeat match type of H with
         | context [match ?x with _ => _ end] => destruct x eqn:?
         end;
  simplify_eq.

Lemma handle_failure_Ok (self : Protocol D) (failure : Failure)
  (t : Trace) (self' : Protocol D) (failure' : Failure) :
  handle_failure debug_failure hexdigest self failure = Ok (t, (self', failure')) →
  ∃ fx dbg pat,
    debug_failure (debugger self) failure = Ok (fx, (dbg, failure')) ∧
    (∀ change, diagnosed_change fx = Some change →
               is_ok (verify_change (verifier self) change) = true) ∧
    _determine_healing_pattern failure' = Ok pat ∧
    step_names t = expected_steps (present (diagnosed_change fx)) (present pat) ∧
    healing_pattern t = pat.
Proof.
  unfold handle_failure, mbind, Result_bind. intros H.
  destruct (debug_failure (debugger self) failure) as [[fx [dbg f1]]|] eqn:Hd;
    [|discriminate].
  unfold diagnosed_change.
  destruct (MCPDebugger.code_changes fx) as [c|] eqn:Hcc;
    [destruct (change_truthy c) eqn:Htr;
     [destruct (verify_change (verifier self) c) as [[verdict vrf]|] eqn:Hv;
      [|discriminate]|]|].
  all: destruct (_determine_healing_pattern f1) as [pat|] eqn:Hsel;
    [|run_stages H].
  all: exists fx, dbg, pat; rewrite Hcc, ?Htr.
  all: destruct pat as [p|];
    [destruct (healing_stage_returns f1 p (self_healing self)
                 (context_get f1 "target" (VStr "system")) Hsel) as [Hne [impl Happ]];
     rewrite Hne, Happ in H|].
  all: run_stages H.
  all: repeat split; try done.
  all: intros ch [= <-]; by rewrite Hv.
Qed.

Lemma handle_failure_returns (self : Protocol D) (failure : Failure)
  (fx : MCPDebugger.Fix) (dbg : D) (failure' : Failure) :
  debug_failure (debugger self) failure = Ok (fx, (dbg, failure')) →
  (∀ change, diagnosed_change fx = Some change →
             is_ok (verify_change (verifier self) change) = true) →
  is_ok (_determine_healing_pattern failure') = true →
  ∃ t self', handle_failure debug_failure hexdigest self failure = Ok (t, (self', failure')).
Proof.
  intros Hd Hver Hsel. unfold handle_failure, mbind, Result_bind. rewrite Hd.
  unfold diagnosed_change in Hver.
  destruct (_determine_healing_pattern failure') as [pat|] eqn:Hp; [|discriminate].
  destruct (MCPDebugger.code_changes fx) as [c|];
    [destruct (change_truthy c);
     [specialize (Hver c eq_refl);
      destruct (verify_change (verifier self) c) as [[verdict vrf]|];
      [|discriminate]|]|].
  all: destruct (RegressionTestGenerator.generate_from_failure hexdigest _ failure')
         as [test_file gen].
  all: destruct (_run_evaluation (evaluator self) failure') as [eval_result ev].
  all: destruct pat as [p|];
    [destruct (healing_stage_returns failure' p (self_healing self)
                 (context_get failure' "target" (VStr "system")) Hp) as [Hne [impl Happ]];
     rewrite Hne, Happ|].
  all: eauto.
Qed.

Lemma handle_failure_Raise (self : Protocol D) (failure : Failure) (e : PyExn) :
  handle_failure debug_failure hexdigest self failure = Raise e →
  debug_failure (debugger self) failure = Raise e ∨
  ∃ fx dbg failure',
    debug_failure (debugger self) failure = Ok (fx, (dbg, failure')) ∧
    ((∃ change, diagnosed_change fx = Some change ∧
                verify_change (verifier self) change = Raise e) ∨
     _determine_healing_pattern failure' = Raise e).
Proof.
  unfold handle_failure, mbind, Result_bind. intros H.
  destruct (debug_failure (debugger self) failure) as [[fx [dbg f1]]|] eqn:Hd;
    [|left; congruence].
  right. exists fx, dbg, f1. split; [done|]. unfold diagnosed_change.
  destruct (MCPDebugger.code_changes fx) as [c|] eqn:Hcc;
    [destruct (change_truthy c) eqn:Htr;
     [destruct (verify_change (verifier self) c) as [[verdict vrf]|] eqn:Hv;
      [|left; exists c; split; congruence]|]|].
  all: right.
  all: destruct (_determine_healing_pattern f1) as [pat|] eqn:Hsel;
    [|run_stages H; done].
  all: exfalso.
  all: destruct pat as [p|];
    [destruct (healing_stage_returns f1 p (self_healing self)
                 (context_get f1 "target" (VStr "system")) Hsel) as [Hne [impl Happ]];
     rewrite Hne, Happ in H|].
  all: run_stages H.
Qed.

(** C6. When the debugger returns, the trace [handle_failure] returns has
    the steps debug, verify (exactly when the fix carries a change),
    regression_test, self_healing (exactly when the selector returns a
    pattern) and evaluation, in this order; the call does return once the
    verification and the selector do; with no change and no pattern the
    steps are debug, regression_test, evaluation. *)
Theorem handle_failure_step_order (self : Protocol D) (failure : Failure)
  (fx : MCPDebugger.Fix) (dbg : D) (failure' : Failure) :
  debug_failure (debugger self) failure = Ok (fx, (dbg, failure')) →
  (∀ t s, handle_failure debug_failure hexdigest self failure = Ok (t, s) →
     ∃ pat, _determine_healing_pattern failure' = Ok pat ∧
            step_names t =
              ["debug"] ++ (if present (diagnosed_change fx) then ["verify"] else []) ++
              ["regression_test"] ++ (if present pat then ["self_healing"] else []) ++
              ["evaluation"]) ∧
  ((∀ change, diagnosed_change fx = Some change →
              is_ok (verify_change (verifier self) change) = true) →
   is_ok (_determine_healing_pattern failure') = true →
   ∃ t s, handle_failure debug_failure hexdigest self failure = Ok (t, s)) ∧
  (diagnosed_change fx = None →
   _determine_healing_pattern failure' = Ok None →
   ∃ t s, handle_failure debug_failure hexdigest self failure = Ok (t, s) ∧
          step_names t = ["debug"; "regression_test"; "evaluation"]).
Proof.
  intros Hd.
  assert (Hsteps : ∀ t s,
    handle_failure debug_failure hexdigest self failure = Ok (t, s) →
    ∃ pat, _determine_healing_pattern failure' = Ok pat ∧
           step_names t = expected_steps (present (diagnosed_change fx)) (present pat)).
  { intros t [self' f1] (fx' & dbg' & pat & Hd' & _ & Hsel & Hnames & _)%handle_failure_Ok.
    rewrite Hd in Hd'. injection Hd' as <- <- <-. eauto. }
  split; [exact Hsteps|]. split.
  - intros Hver Hsel.
    destruct (handle_failure_returns self failure fx dbg failure' Hd Hver Hsel)
      as (t & self' & Ht). eauto.
  - intros Hnone Hsel.
    destruct (handle_failure_returns self failure fx dbg failure' Hd) as (t & self' & Ht).
    + intros change Hc. congruence.
    + by rewrite Hsel.
    + exists t, (self', failure'). split; [done|].
      destruct (Hsteps _ _ Ht) as (pat & Hp & Hnames).
      rewrite Hsel in Hp. injection Hp as <-. by rewrite Hnames, Hnone.
Qed.

(** C10. Every pattern the selector returns is a catalog name, so
    [apply_pattern] returns on it; an exception that leaves
    [handle_failure] was raised by the debugger, by the verification or by
    the selector, never by the self-healing stage. *)
Theorem healing_stage_never_unknown (self : Protocol D) (failure : Failure) :
  (∀ error_type p, select error_type = Some p →
     p ∈ [ "connection_retry"; "circuit_breaker"; "rate_limiter";
           "fallback"; "cache_recovery" ]) ∧
  (∀ p, _determine_healing_pattern failure = Ok (Some p) →
     p ∈ map fst SelfHealingPatterns.patterns ∧
     ∀ applied tgt, is_ok (SelfHealingPatterns.apply_pattern applied p tgt) = true) ∧
  (∀ e, handle_failure debug_failure hexdigest self failure = Raise e →
     debug_failure (debugger self) failure = Raise e ∨
     ∃ fx dbg failure',
       debug_failure (debugger self) failure = Ok (fx, (dbg, failure')) ∧
       ((∃ change, diagnosed_change fx = Some change ∧
                   verify_change (verifier self) change = Raise e) ∨
        _determine_healing_pattern failure' = Raise e)).
Proof.
  split; [|split].
  - intros error_type p H. unfold select in H. by apply first_match_range in H.
  - intros p Hp. split.
    + by apply determine_healing_pattern_Some in Hp as [Hin _].
    + intros applied tgt.
      destruct (healing_stage_returns failure p applied tgt Hp) as [_ [impl ->]]. done.
  - apply handle_failure_Raise.
Qed.

End Pipeline.

Lemma handle_failure_step_order_witness :
  ∃ t s,
    handle_failure MCPDebugger.debug_failure sample_hexdigest default_protocol mcp_failure =
      Ok (t, s) ∧
    step_names t = ["debug"; "verify"; "regression_test"; "self_healing"; "evaluation"].
Proof.
  edestruct (handle_failure_step_order MCPDebugger.debug_failure sample_hexdigest
               default_protocol mcp_failure) as (Hsteps & Hret & _); [reflexivity|].
  destruct Hret as (t & s & Ht).
  - intros change Hc. vm_compute in Hc. injection Hc as <-. vm_compute. reflexivity.
  - vm_compute. reflexivity.
  - exists t, s. split; [exact Ht|].
    destruct (Hsteps t s Ht) as (pat & Hp & Hnames).
    vm_compute in Hp. injection Hp as <-. exact Hnames.
Defined.

(** A run with no change and no pattern: the scenario of an unknown error
    type, with a debugger that proposes nothing. *)
Example handle_failure_unknown_thing :
  ∃ t s,
    handle_failure reporting_debugger sample_hexdigest (SelfImprovementProtocol.init tt)
      unknown_failure = Ok (t, s) ∧
    step_names t = ["debug"; "regression_test"; "evaluation"] ∧
    healing_pattern t = None.
Proof. eexists _, _. split; [reflexivity|]. split; reflexivity. Qed.

(** ** The pipeline with the repository's debugger *)

Lemma debug_failure_keeps_context (fixes : list MCPDebugger.Fix) (failure : Failure)
  (fx : MCPDebugger.Fix) (fixes' : list MCPDebugger.Fix) (failure' : Failure) :
  MCPDebugger.debug_failure fixes failure = Ok (fx, (fixes', failure')) →
  context failure' = context failure ∧ present (diagnosed_change fx) = true.
Proof.
  unfold MCPDebugger.debug_failure. destruct (type failure).
  - unfold MCPDebugger._fix_mcp_error.
    destruct (context_get failure "traceback" (VStr "")); try discriminate.
    intros [= <- <- <-]. split; [reflexivity|].
    repeat match goal with
           | |- context [if ?b then _ else _] => destruct b
           end; try reflexivity.
    unfold MCPDebugger._analyze_and_fix_error. by destruct (MCPDebugger.scan_lines _).
  - unfold MCPDebugger._add_missing_tool, mbind, Result_bind.
    destruct (context_get failure "tool_name" (VStr "unknown")); try discriminate.
    intros [= <- <- <-]. split; reflexivity.
  - intros [= <- <- <-]. split; reflexivity.
  - intros [= <- <- <-]. split; reflexivity.
  - intros [= <- <- <-]. split; reflexivity.
Qed.

(** The steps and the pattern of a run that returns, from the context. *)
Lemma handle_failure_from_context (hexdigest : string → string)
  (self : Protocol (list MCPDebugger.Fix)) (failure : Failure)
  (t : Trace) (s : Protocol (list MCPDebugger.Fix) * Failure) :
  handle_failure MCPDebugger.debug_failure hexdigest self failure = Ok (t, s) →
  selected (context failure) = Ok (healing_pattern t) ∧
  step_names t = expected_steps true (present (healing_pattern t)).
Proof.
  destruct s as [self' failure'].
  intros (fx & dbg & pat & Hd & _ & Hsel & Hnames & Hpat)%handle_failure_Ok.
  apply debug_failure_keeps_context in Hd as [Hctx Hchange].
  rewrite determine_healing_pattern_selected, Hctx in Hsel.
  rewrite Hchange in Hnames. by rewrite Hpat.
Qed.

(** C8. Two runs of [handle_failure] on failures with the same context,
    from any two states of the orchestrator, return traces with the same
    step names and the same self-healing pattern: both are what the
    selector gives on the context. *)
Theorem handle_failure_same_context (hexdigest : string → string)
  (self1 self2 : Protocol (list MCPDebugger.Fix)) (failure1 failure2 : Failure)
  (t1 t2 : Trace) (s1 s2 : Protocol (list MCPDebugger.Fix) * Failure) :
  context failure1 = context failure2 →
  handle_failure MCPDebugger.debug_failure hexdigest self1 failure1 = Ok (t1, s1) →
  handle_failure MCPDebugger.debug_failure hexdigest self2 failure2 = Ok (t2, s2) →
  step_names t1 = step_names t2 ∧
  healing_pattern t1 = healing_pattern t2 ∧
  selected (context failure1) = Ok (healing_pattern t1) ∧
  step_names t1 = expected_steps true (present (healing_pattern t1)).
Proof.
  intros Hctx [Hsel1 Hn1]%handle_failure_from_context
              [Hsel2 Hn2]%handle_failure_from_context.
  assert (Heq : healing_pattern t1 = healing_pattern t2)
    by (rewrite Hctx in Hsel1; congruence).
  split; [by rewrite Hn1, Hn2, Heq|]. done.
Qed.

Lemma handle_failure_same_context_witness :
  ∃ t1 s1 t2 s2,
    handle_failure MCPDebugger.debug_failure sample_hexdigest default_protocol mcp_failure =
      Ok (t1, s1) ∧
    handle_failure MCPDebugger.debug_failure sample_hexdigest (fst s1) runtime_failure =
      Ok (t2, s2) ∧
    step_names t1 = step_names t2 ∧
    healing_pattern t1 = healing_pattern t2 ∧
    healing_pattern t1 = Some "circuit_breaker".
Proof.
  destruct (handle_failure MCPDebugger.debug_failure sample_hexdigest
              default_protocol mcp_failure) as [[t1 s1]|e] eqn:H1;
    [|vm_compute in H1; discriminate].
  destruct (handle_failure MCPDebugger.debug_failure sample_hexdigest
              (fst s1) runtime_failure) as [[t2 s2]|e] eqn:H2.
  - exists t1, s1, t2, s2.
    destruct (handle_failure_same_context sample_hexdigest default_protocol (fst s1)
                mcp_failure runtime_failure t1 t2 s1 s2 eq_refl H1 H2)
      as (Hn & Hp & Hs & _).
    assert (Hsel : selected (context mcp_failure) = Ok (Some "circuit_breaker"))
      by (vm_compute; reflexivity).
    rewrite Hsel in Hs. injection Hs as Hs.
    split; [reflexivity|]. split; [exact H2|].
    split; [exact Hn|]. split; [exact Hp | by symmetry].
  - exfalso. vm_compute in H1. injection H1 as <- <-.
    vm_compute in H2. discriminate.
Defined.

Lemma builtin_check_returns (check : string) (change : Change) :
  is_ok (_perform_check builtin_checks check change) = true.
Proof.
  unfold _perform_check.
  repeat match goal with
         | |- context [if ?b then _ else _] => destruct b
         end; reflexivity.
Qed.

Lemma builtin_verify_returns (v : Verifier) (change : Change) :
  methods v = builtin_checks → is_ok (verify_change v change) = true.
Proof.
  intros Hm. destruct (verify_change v change) as [r|e] eqn:Hv; [done|].
  destruct (proj2 (verify_change_raise v change)) as (agent & check & _ & _ & Hr); [eauto|].
  by rewrite Hm, builtin_check_returns in Hr.
Qed.

Lemma debug_failure_returns (fixes : list MCPDebugger.Fix) (failure : Failure) :
  str_or_absent (context failure) "traceback" →
  str_or_absent (context failure) "tool_name" →
  is_ok (MCPDebugger.debug_failure fixes failure) = true.
Proof.
  intros Htb Htool.
  unfold MCPDebugger.debug_failure, MCPDebugger._fix_mcp_error,
    MCPDebugger._add_missing_tool, context_get.
  destruct (type failure); try reflexivity.
  - destruct (context failure !! "traceback") as [v|] eqn:Hv; [|reflexivity].
    by destruct (Htb v Hv) as [s ->].
  - destruct (context failure !! "tool_name") as [v|] eqn:Hv; [|reflexivity].
    by destruct (Htool v Hv) as [s ->].
Qed.

(** With the checks of the class and a context whose traceback, tool name
    and error type are strings (or missing), [handle_failure] returns. *)
Lemma handle_failure_total (hexdigest : string → string)
  (self : Protocol (list MCPDebugger.Fix)) (failure : Failure) :
  methods (verifier self) = builtin_checks →
  str_or_absent (context failure) "traceback" →
  str_or_absent (context failure) "tool_name" →
  str_or_absent (context failure) "error_type" →
  ∃ t s, handle_failure MCPDebugger.debug_failure hexdigest self failure = Ok (t, s).
Proof.
  intros Hm Htb Htool Het.
  pose proof (debug_failure_returns (debugger self) failure Htb Htool) as Hd.
  apply is_ok_true in Hd as [[fx [dbg failure']] Hd].
  pose proof (debug_failure_keeps_context _ _ _ _ _ Hd) as [Hctx _].
  destruct (handle_failure_returns MCPDebugger.debug_failure hexdigest self failure
              fx dbg failure' Hd) as (t & self' & Ht).
  - intros change _. by apply builtin_verify_returns.
  - rewrite determine_healing_pattern_selected, Hctx. unfold selected.
    destruct (context failure !! "error_type") as [v|] eqn:Hv; [|reflexivity].
    by destruct (Het v Hv) as [s ->].
  - eauto.
Qed.

(* ===================================================================== *)
(** * Further properties *)
(* ===================================================================== *)

(** ** The verification engine: issues, confidence, registration *)

Lemma check_outcomes_Forall2 (m : CheckMethods) (change : Change)
  (checks : list string) (rs : list (string * CheckResult)) :
  check_outcomes m change checks = Ok rs ↔
  Forall2 (fun c kv => fst kv = c ∧ _perform_check m c change = Ok (snd kv)) checks rs.
Proof.
  unfold check_outcomes. rewrite mapM_Ok. split.
  - induction 1 as [|c [k r] cs rs' Hc _ IH]; constructor; [|done].
    destruct (_perform_check m c change); simpl in Hc; [|discriminate].
    by injection Hc as <- <-.
  - induction 1 as [|c [k r] cs rs' [Hk Hc] _ IH]; constructor; [|done].
    simpl in *. subst k. by rewrite Hc.
Qed.

Lemma execute_verification_Ok (m : CheckMethods) (agent : Agent) (change : Change)
  (r : AgentResult) :
  _execute_verification m (_create_verification_task agent change) = Ok r ↔
  agent_id r = id agent ∧
  overall r = forallb (fun kv => passed (snd kv)) (results r) ∧
  Forall2 (fun c kv => fst kv = c ∧ _perform_check m c change = Ok (snd kv))
          (_determine_checks agent change) (results r).
Proof.
  rewrite execute_verification_outcomes, bind_Ok. split.
  - intros (rs & Hrs%check_outcomes_Forall2 & [= <-]). done.
  - intros (Hid & Hov & Hrs). exists (results r).
    split; [by apply check_outcomes_Forall2|].
    destruct r as [i rs o]. simpl in *. by subst.
Qed.

Lemma result_issues_nil (r : AgentResult) :
  result_issues r = [] ↔ forallb (fun kv => passed (snd kv)) (results r) = true.
Proof.
  unfold result_issues. induction (results r) as [|[c cr] rs IH]; simpl; [done|].
  destruct (passed cr); simpl; [exact IH|]. split; discriminate.
Qed.

Lemma elem_of_result_issues (r : AgentResult) (i : Issue) :
  i ∈ result_issues r ↔
  ∃ check cr, (check, cr) ∈ results r ∧ passed cr = false ∧
              i = mkIssue (agent_id r) check (details cr).
Proof.
  unfold result_issues. rewrite list_elem_of_In, in_flat_map. split.
  - intros ([c cr] & Hin%list_elem_of_In & Hi). simpl in Hi.
    destruct (passed cr) eqn:Hp; [done|].
    destruct Hi as [<- | []]. eauto.
  - intros (c & cr & Hin & Hp & ->). exists (c, cr).
    split; [by apply list_elem_of_In|]. simpl. rewrite Hp. by left.
Qed.

Lemma aggregate_verified_no_issues (m : CheckMethods) (change : Change)
  (ags : list Agent) (rs : list AgentResult) :
  Forall2 (fun agent r =>
             _execute_verification m (_create_verification_task agent change) = Ok r)
          ags rs →
  forallb overall rs = true ↔ flat_map result_issues rs = [].
Proof.
  induction 1 as [|agent r ags rs Hr _ IH]; [done|].
  apply execute_verification_Ok in Hr as (_ & Hov & _).
  cbn [forallb flat_map]. rewrite andb_true_iff, IH, Hov, <- result_issues_nil.
  split.
  - by intros [-> ->].
  - by intros [-> ->]%app_eq_nil.
Qed.

Lemma result_issues_failed_checks (m : CheckMethods) (change : Change)
  (agent : Agent) (r : AgentResult) :
  _execute_verification m (_create_verification_task agent change) = Ok r →
  result_issues r = failed_checks m change agent.
Proof.
  intros (Hid & _ & Hres)%execute_verification_Ok.
  unfold result_issues, failed_checks. rewrite Hid.
  induction Hres as [|c [k cr] cs rs [Hk Hc] _ IH]; [done|].
  cbn [flat_map]. simpl in Hk, Hc. subst k. rewrite Hc, IH. done.
Qed.

(** X1. A verdict [verify_change] returns is verified exactly when it lists
    no issue. Its issues are the failed checks of the applicable agents,
    one entry for each, agent by agent in registration order and check by
    check: agent, check name and details. *)
Theorem verify_change_issues (v : Verifier) (change : Change)
  (verdict : Verdict) (v' : Verifier) :
  verify_change v change = Ok (verdict, v') →
  (verified verdict = true ↔ issues verdict = []) ∧
  issues verdict = flat_map (failed_checks (methods v) change) (applicable v change) ∧
  ∀ i, i ∈ issues verdict ↔
       ∃ agent check cr,
         agent ∈ applicable v change ∧
         check ∈ _determine_checks agent change ∧
         _perform_check (methods v) check change = Ok cr ∧
         passed cr = false ∧
         i = mkIssue (id agent) check (details cr).
Proof.
  intros (rs & Hrs & -> & _)%verify_change_Ok.
  cbn [_aggregate_results verified issues]. split; [|split].
  - by eapply aggregate_verified_no_issues.
  - induction Hrs as [|agent r ags rs' Hr _ IH]; [done|].
    cbn [flat_map]. by rewrite IH, (result_issues_failed_checks _ _ _ _ Hr).
  - intros i. induction Hrs as [|agent r ags rs' Hr _ IH].
    + split; [by intros ?%elem_of_nil | by intros (? & ? & ? & ?%elem_of_nil & _)].
    + apply execute_verification_Ok in Hr as (Hid & _ & Hres).
      cbn [flat_map]. rewrite elem_of_app, IH, elem_of_result_issues, Hid. split.
      * intros [(check & cr & Hin & Hp & ->) | (a & check & cr & Ha & H)].
        -- exists agent, check, cr. split; [left|].
           apply list_elem_of_lookup in Hin as [n Hn].
           destruct (Forall2_lookup_r _ _ _ _ _ Hres Hn) as (c & Hc & Hk & Hperf).
           simpl in *. subst c. split; [by eapply list_elem_of_lookup_2|]. done.
        -- exists a, check, cr. split; [by right | done].
      * intros (a & check & cr & [-> | Ha]%elem_of_cons & Hc & Hperf & Hp & ->).
        -- left. exists check, cr. split; [|done].
           apply list_elem_of_lookup in Hc as [n Hn].
           destruct (Forall2_lookup_l _ _ _ _ _ Hres Hn) as ([k cr'] & Hk & Hkeq & Hperf').
           simpl in *. subst k. rewrite Hperf in Hperf'. injection Hperf' as <-.
           by eapply list_elem_of_lookup_2.
        -- right. eauto 10.
Qed.

Lemma verify_change_issues_witness :
  ∃ verdict v',
    verify_change default_verifier code_security_change = Ok (verdict, v') ∧
    (verified verdict = true ↔ issues verdict = []) ∧
    issues verdict =
      flat_map (failed_checks (methods default_verifier) code_security_change)
               (applicable default_verifier code_security_change).
Proof.
  eexists _, _. split; [reflexivity|].
  destruct (verify_change_issues default_verifier code_security_change _ _ eq_refl)
    as (Hverified & Hissues & _).
  split; [exact Hverified | exact Hissues].
Defined.

Lemma filter_nil_Forall {A} (P : A → Prop) `{∀ x, Decision (P x)} (l : list A) :
  Forall (fun x => ¬ P x) l → filter P l = [].
Proof.
  induction 1 as [|x l Hx _ IH]; [done|]. by rewrite filter_cons_False.
Qed.

(** X2. The confidence of a returned verdict lies between 0 and 1, and it
    is 0 exactly when no applicable agent has all its checks passing. *)
Theorem verify_change_confidence_bounds (v : Verifier) (change : Change)
  (verdict : Verdict) (v' : Verifier) :
  verify_change v change = Ok (verdict, v') →
  (0 <= confidence verdict)%Q ∧ (confidence verdict <= 1)%Q ∧
  ((confidence verdict == 0)%Q ↔
   ∀ agent, agent ∈ applicable v change →
            checks_all_pass (methods v) agent change = false).
Proof.
  intros (rs & Hrs & -> & _)%verify_change_Ok.
  apply passing_count in Hrs as [Hlen Hcount].
  unfold _aggregate_results. cbn [confidence].
  set (good := filter (fun agent => checks_all_pass (methods v) agent change = true)
                      (applicable v change)) in *.
  assert (Hnone : length good = 0 ↔
                  ∀ agent, agent ∈ applicable v change →
                           checks_all_pass (methods v) agent change = false).
  { rewrite length_zero_iff_nil. subst good. split.
    - intros Hnil agent Hin. apply not_true_is_false. intros Hp.
      assert (Hg : agent ∈ filter (fun a => checks_all_pass (methods v) a change = true)
                            (applicable v change))
        by (apply list_elem_of_filter; done).
      rewrite Hnil in Hg. by apply elem_of_nil in Hg.
    - intros Hall. apply filter_nil_Forall, Forall_forall.
      intros agent Hin. by rewrite (Hall agent Hin). }
  pose proof (length_filter (fun r => overall r = true) rs) as Hle.
  destruct rs as [|r rs].
  - destruct (applicable v change); [|discriminate].
    split; [done|]. split; [done|]. split; [|done].
    intros _ agent Hin. by apply elem_of_nil in Hin.
  - rewrite <- Hnone, <- Hcount.
    set (k := length (filter (fun r => overall r = true) (r :: rs))) in *.
    set (n := length (r :: rs)) in *.
    assert (Hn : 0 < n) by (subst n; simpl; lia).
    assert (Hz : Z.pos (Pos.of_nat n) = Z.of_nat n)
      by (rewrite <- positive_nat_Z, Nat2Pos.id by lia; done).
    unfold Qle, Qeq. simpl. rewrite Hz. split; [lia|]. split; lia.
Qed.

Lemma verify_change_confidence_bounds_witness :
  ∃ verdict v',
    verify_change default_verifier code_security_change = Ok (verdict, v') ∧
    (0 <= confidence verdict)%Q ∧ (confidence verdict <= 1)%Q.
Proof.
  eexists _, _. split; [reflexivity|].
  destruct (verify_change_confidence_bounds default_verifier code_security_change
              _ _ eq_refl) as (H0 & H1 & _).
  split; [exact H0 | exact H1].
Defined.

Lemma applicable_register_agent (agent_id : string) (caps : list string)
  (v : Verifier) (change : Change) :
  applicable (register_agent agent_id caps v) change =
  applicable v change ++
  (if _can_verify (mkAgent agent_id caps "active") change
   then [mkAgent agent_id caps "active"] else []).
Proof.
  unfold applicable, register_agent. simpl. rewrite filter_app, filter_cons, filter_nil.
  destruct (_can_verify _ change); [by rewrite decide_True | by rewrite decide_False].
Qed.

(** X3. [register_agent] puts the new agent last among the applicable
    ones, and an agent that cannot verify a change leaves the verdict on
    that change as it was: same verdict, same exception. *)
Theorem register_agent_not_applicable (agent_id : string) (caps : list string)
  (v : Verifier) (change : Change) :
  applicable (register_agent agent_id caps v) change =
    applicable v change ++
    (if _can_verify (mkAgent agent_id caps "active") change
     then [mkAgent agent_id caps "active"] else []) ∧
  (_can_verify (mkAgent agent_id caps "active") change = false →
   verdict_of (verify_change (register_agent agent_id caps v) change) =
   verdict_of (verify_change v change)).
Proof.
  split; [apply applicable_register_agent|]. intros Hno.
  pose proof (applicable_register_agent agent_id caps v change) as Happ.
  rewrite Hno, app_nil_r in Happ.
  unfold verify_change. fold (applicable (register_agent agent_id caps v) change).
  fold (applicable v change). rewrite Happ.
  change (methods (register_agent agent_id caps v)) with (methods v).
  by destruct (mapM _ _).
Qed.

Lemma empty_substring (cap : string) : is_substring cap "" = true ↔ cap = "".
Proof.
  rewrite is_substring_occurs. unfold occurs. split.
  - intros ([|? ?] & post & H); [|discriminate].
    rewrite append_nil in H. destruct cap; [done | discriminate].
  - intros ->. by exists "", "".
Qed.

Lemma empty_is_substring (s : string) : is_substring "" s = true.
Proof. apply is_substring_occurs. by exists "", s. Qed.

(** X4. A change without a ["type"] entry, or with an empty one, is
    verified by exactly the agents that list the empty string as a
    capability; such an agent is applicable to every change, and an agent
    without capabilities to none. *)
Theorem can_verify_empty_edge (agent : Agent) (change : Change) :
  (change_type change = None ∨ change_type change = Some "" →
   (_can_verify agent change = true ↔ "" ∈ capabilities agent)) ∧
  ("" ∈ capabilities agent → _can_verify agent change = true) ∧
  (capabilities agent = [] → _can_verify agent change = false).
Proof.
  split; [|split].
  - intros Htype. unfold _can_verify.
    assert (default "" (change_type change) = "") as -> by (by destruct Htype as [-> | ->]).
    rewrite existsb_exists. split.
    + intros (cap & Hin & ->%empty_substring). by apply list_elem_of_In.
    + intros Hin. exists "". split; [by apply list_elem_of_In | done].
  - intros Hin. unfold _can_verify. apply existsb_exists.
    exists "". split; [by apply list_elem_of_In | apply empty_is_substring].
  - intros Hnil. unfold _can_verify. by rewrite Hnil.
Qed.

Lemma filter_all_true {A} (P : A → Prop) `{∀ x, Decision (P x)} (l : list A) :
  (∀ x, P x) → filter P l = l.
Proof.
  intros HP. induction l as [|x l IH]; [done|]. by rewrite filter_cons_True, IH.
Qed.

Lemma builtin_checks_all_pass (agent : Agent) (change : Change) :
  checks_all_pass builtin_checks agent change = true.
Proof.
  unfold checks_all_pass. apply forallb_forall. intros c _.
  unfold _perform_check.
  repeat match goal with
         | |- context [if ?b then _ else _] => destruct b
         end; reflexivity.
Qed.

(** X5. With the check methods as the class defines them, [verify_change]
    always returns, and its verdict is verified with no issue whatever the
    change and the registered agents; its confidence is 1 as soon as an
    agent is applicable. *)
Theorem builtin_verify_always_verified (v : Verifier) (change : Change) :
  methods v = builtin_checks →
  ∃ verdict v',
    verify_change v change = Ok (verdict, v') ∧
    verified verdict = true ∧
    issues verdict = [] ∧
    agent_count verdict = length (applicable v change) ∧
    (applicable v change ≠ [] → (confidence verdict == 1)%Q).
Proof.
  intros Hm.
  pose proof (builtin_verify_returns v change Hm) as Hok.
  apply is_ok_true in Hok as [[verdict v'] Hv].
  exists verdict, v'. split; [done|].
  pose proof Hv as (rs & Hrs & -> & _)%verify_change_Ok.
  pose proof (passing_count _ _ _ _ Hrs) as [Hlen Hcount].
  assert (Hfull : length (filter (fun r => overall r = true) rs) = length rs).
  { rewrite Hcount, Hlen. f_equal. apply filter_all_true.
    intros agent. rewrite Hm. apply builtin_checks_all_pass. }
  assert (Hall : forallb overall rs = true) by (by apply forallb_filter_length).
  split; [done|].
  split; [by apply (aggregate_verified_no_issues _ _ _ _ Hrs)|].
  split; [done|]. intros Hne.
  unfold _aggregate_results. cbn [confidence].
  destruct rs as [|r rs].
  - destruct (applicable v change); [done | discriminate].
  - apply ratio_one; [simpl; lia | done].
Qed.

Lemma builtin_verify_always_verified_witness :
  ∃ verdict v',
    verify_change default_verifier code_security_change = Ok (verdict, v') ∧
    verified verdict = true ∧ issues verdict = [] ∧
    agent_count verdict = length (applicable default_verifier code_security_change) ∧
    (applicable default_verifier code_security_change ≠ [] →
     (confidence verdict == 1)%Q).
Proof.
  exact (builtin_verify_always_verified default_verifier code_security_change eq_refl).
Defined.

Lemma mapM_ext {A B} (f g : A → Result B) (xs : list A) :
  (∀ x, x ∈ xs → f x = g x) → mapM f xs = mapM g xs.
Proof.
  induction xs as [|x xs IH]; intros Hfg; simpl; [done|].
  rewrite (Hfg x) by left. rewrite IH; [done|].
  intros y Hy. apply Hfg. by right.
Qed.

Lemma determine_checks_names (agent : Agent) (change : Change) (check : string) :
  check ∈ _determine_checks agent change → check ∈ check_names.
Proof.
  unfold _determine_checks, check_names.
  destruct (mem "code" _), (mem "security" _), (mem "performance" _); simpl;
    rewrite !list_elem_of_In; simpl; tauto.
Qed.

Lemma run_checks_ext (m1 m2 : CheckMethods) (change : Change)
  (checks : list string) (acc : list (string * CheckResult)) :
  (∀ c, c ∈ checks → _perform_check m1 c change = _perform_check m2 c change) →
  run_checks m1 change checks acc = run_checks m2 change checks acc.
Proof.
  revert acc. induction checks as [|c checks IH]; intros acc Hext; simpl; [done|].
  rewrite (Hext c) by left.
  destruct (_perform_check m2 c change); simpl; [|done].
  apply IH. intros c' Hc'. apply Hext. by right.
Qed.

Lemma perform_check_known (m : CheckMethods) (d : Change → Result CheckResult)
  (check : string) (change : Change) :
  check ∈ check_names →
  _perform_check (with_default_check m d) check change = _perform_check m check change.
Proof.
  unfold check_names. rewrite list_elem_of_In. simpl.
  intros [<- | [<- | [<- | [<- | [<- | [<- | [<- | []]]]]]]]; reflexivity.
Qed.

(** X6. [_perform_check] falls back on the default check for a name it
    has no method for, and [verify_change] never gets there: every check
    it runs is one of the seven named ones, so replacing the default check
    changes neither verdict nor exception. *)
Theorem default_check_never_runs (v : Verifier)
  (d : Change → Result CheckResult) (change : Change) :
  (∀ check, check ∉ check_names →
            _perform_check (methods v) check change = _default_check (methods v) change) ∧
  (∀ agent check, check ∈ _determine_checks agent change → check ∈ check_names) ∧
  verdict_of (verify_change (with_methods v (with_default_check (methods v) d)) change) =
  verdict_of (verify_change v change).
Proof.
  split; [|split].
  - intros check Hno. unfold _perform_check.
    repeat match goal with
           | |- context [String.eqb check ?name] =>
               destruct (String.eqb_spec check name) as [->|_];
               [exfalso; apply Hno; unfold check_names;
                apply list_elem_of_In; simpl; tauto|]
           end.
    reflexivity.
  - intros agent check. apply determine_checks_names.
  - unfold verify_change, with_methods. cbn [methods agents verification_results].
    set (m' := with_default_check (methods v) d).
    rewrite (mapM_ext (_execute_verification m') (_execute_verification (methods v))).
    + by destruct (mapM _ _).
    + intros t (agent & -> & _)%list_elem_of_fmap.
      unfold _execute_verification, _create_verification_task.
      cbn [task_change task_checks task_agent_id].
      rewrite (run_checks_ext m' (methods v)); [done|].
      intros c Hc. apply perform_check_known. by eapply determine_checks_names.
Qed.

(** ** The pipeline: what the trace holds *)

Lemma healing_stage_lookup (failure : Failure) (p : string) :
  _determine_healing_pattern failure = Ok (Some p) →
  String.eqb p "" = false ∧
  ∃ f, SelfHealingPatterns.lookup_pattern p SelfHealingPatterns.patterns = Some f.
Proof.
  intros [Hin Hne]%determine_healing_pattern_Some. split; [done|].
  destruct (SelfHealingPatterns.lookup_pattern p SelfHealingPatterns.patterns)
    as [f|] eqn:Hl; [eauto|].
  by apply (lookup_pattern_None p SelfHealingPatterns.patterns) in Hl.
Qed.

Section Trace.

Context {D : Type}.
Variable debug_failure : DebugMethod D.
Variable hexdigest : string → string.

(** The trace and the state of a run that returns, stage by stage. *)
Lemma handle_failure_trace (self : Protocol D) (failure : Failure)
  (t : Trace) (self' : Protocol D) (failure' : Failure) :
  handle_failure debug_failure hexdigest self failure = Ok (t, (self', failure')) →
  ∃ fx dbg pat,
    debug_failure (debugger self) failure = Ok (fx, (dbg, failure')) ∧
    _determine_healing_pattern failure' = Ok pat ∧
    trace_failure t = failure ∧
    steps t =
      [mkStep "debug" (RDebug fx)] ++ verify_steps (verifier self) fx ++
      [mkStep "regression_test"
         (RRegression (fst (RegressionTestGenerator.generate_from_failure hexdigest
                              (regression_generator self) failure')))] ++
      healing_steps pat (context_get failure' "target" (VStr "system")) ++
      [mkStep "evaluation" (REvaluation (fst (_run_evaluation (evaluator self) failure')))] ∧
    debugger self' = dbg ∧
    evaluator self' = snd (_run_evaluation (evaluator self) failure') ∧
    regression_generator self' =
      snd (RegressionTestGenerator.generate_from_failure hexdigest
             (regression_generator self) failure') ∧
    agents (verifier self') = agents (verifier self) ∧
    self_healing self' =
      self_healing self ++
      applied_of (healing_steps pat (context_get failure' "target" (VStr "system"))) ∧
    length (verification_results (verifier self')) =
      length (verification_results (verifier self)) + length (verify_steps (verifier self) fx).
Proof.
  unfold handle_failure, mbind, Result_bind. intros H.
  destruct (debug_failure (debugger self) failure) as [[fx [dbg f1]]|] eqn:Hd;
    [|discriminate].
  destruct (MCPDebugger.code_changes fx) as [c|] eqn:Hcc;
    [destruct (change_truthy c) eqn:Htr;
     [destruct (verify_change (verifier self) c) as [[verdict vrf]|] eqn:Hv;
      [pose proof Hv as (rs & _ & _ & Hvrf)%verify_change_Ok|discriminate]|]|].
  all: destruct (_determine_healing_pattern f1) as [pat|] eqn:Hsel;
    [|repeat match type of H with
             | context [match ?x with _ => _ end] => destruct x eqn:?
             end; simplify_eq].
  all: exists fx, dbg, pat.
  all: unfold verify_steps, diagnosed_change; rewrite Hcc, ?Htr, ?Hv.
  all: destruct (RegressionTestGenerator.generate_from_failure hexdigest _ f1)
         as [test_file gen] eqn:Hgen.
  all: destruct (_run_evaluation (evaluator self) f1) as [eval_result ev] eqn:Hev.
  all: unfold healing_steps.
  all: destruct pat as [p|];
    [destruct (healing_stage_lookup f1 p Hsel) as [Hne [f Hl]];
     unfold SelfHealingPatterns.apply_pattern in H; rewrite Hne, Hl in H; rewrite Hl|].
  all: injection H as <- <- <-.
  all: try subst vrf.
  all: rewrite Hgen, Hev.
  all: cbn [fst snd steps trace_failure debugger evaluator verifier
            regression_generator self_healing agents verification_results
            length app applied_of flat_map result].
  all: rewrite ?length_app, ?app_nil_r; cbn [length].
  all: repeat split; try done; lia.
Qed.

End Trace.

(** ** The pipeline with the repository's debugger: verdict, failure, errors *)

Lemma debug_failure_effect (fixes : list MCPDebugger.Fix) (failure : Failure)
  (fx : MCPDebugger.Fix) (fixes' : list MCPDebugger.Fix) (failure' : Failure) :
  MCPDebugger.debug_failure fixes failure = Ok (fx, (fixes', failure')) →
  (∃ change, diagnosed_change fx = Some change ∧ change_type change = None) ∧
  (type failure = MCP_ERROR →
   fixes' = fixes ++ [fx] ∧
   failure' = {| type := type failure; description := description failure;
                 context := context failure; timestamp := timestamp failure;
                 resolved := true;
                 resolution := Some (MCPDebugger.solution fx) |}) ∧
  (type failure ≠ MCP_ERROR → fixes' = fixes ∧ failure' = failure).
Proof.
  unfold MCPDebugger.debug_failure. destruct (type failure) eqn:Hty.
  - unfold MCPDebugger._fix_mcp_error.
    destruct (context_get failure "traceback" (VStr "")); try discriminate.
    intros [= <- <- <-]. split; [|split; [by rewrite Hty | done]].
    repeat match goal with
           | |- context [if ?b then _ else _] => destruct b
           end; try (eexists; split; reflexivity).
    unfold MCPDebugger._analyze_and_fix_error.
    destruct (MCPDebugger.scan_lines _). eexists; split; reflexivity.
  - unfold MCPDebugger._add_missing_tool, mbind, Result_bind.
    destruct (context_get failure "tool_name" (VStr "unknown")); try discriminate.
    intros [= <- <- <-]. split; [eexists; split; reflexivity|]. done.
  - intros [= <- <- <-]. split; [eexists; split; reflexivity|]. done.
  - intros [= <- <- <-]. split; [eexists; split; reflexivity|]. done.
  - intros [= <- <- <-]. split; [eexists; split; reflexivity|]. done.
Qed.

Lemma applicable_untyped (v : Verifier) (change : Change) :
  change_type change = None →
  (∀ agent, agent ∈ agents v → "" ∉ capabilities agent) →
  applicable v change = [].
Proof.
  intros Hty Hcaps. unfold applicable. apply filter_nil_Forall, Forall_forall.
  intros agent Hin Hcan. apply (Hcaps agent Hin).
  unfold _can_verify in Hcan. rewrite Hty in Hcan. simpl in Hcan.
  apply existsb_exists in Hcan as (cap & Hcap & ->%empty_substring).
  by apply list_elem_of_In.
Qed.

(** X7. In a run of [handle_failure] with the repository's debugger, the
    change handed to the verifier has no ["type"] entry: unless an agent
    lists the empty capability, no agent is applicable, and the verify step
    is the second step of the trace with a verdict that is verified with 0
    agents and confidence 0. *)
Theorem handle_failure_verify_vacuous (hexdigest : string → string)
  (self : Protocol (list MCPDebugger.Fix)) (failure : Failure)
  (t : Trace) (s : Protocol (list MCPDebugger.Fix) * Failure) :
  handle_failure MCPDebugger.debug_failure hexdigest self failure = Ok (t, s) →
  (∀ agent, agent ∈ agents (verifier self) → "" ∉ capabilities agent) →
  steps t !! 1 = Some (mkStep "verify" (RVerify vacuous_verdict)).
Proof.
  destruct s as [self' failure'].
  intros (fx & dbg & pat & Hd & _ & _ & Hsteps & _)%handle_failure_trace Hcaps.
  apply debug_failure_effect in Hd as ((change & Hch & Hty) & _).
  rewrite Hsteps. unfold verify_steps. rewrite Hch.
  by rewrite verify_change_no_applicable by (by apply applicable_untyped).
Qed.

Lemma handle_failure_verify_vacuous_witness :
  ∃ t s,
    handle_failure MCPDebugger.debug_failure sample_hexdigest default_protocol mcp_failure =
      Ok (t, s) ∧
    steps t !! 1 = Some (mkStep "verify" (RVerify vacuous_verdict)).
Proof.
  destruct (handle_failure MCPDebugger.debug_failure sample_hexdigest
              default_protocol mcp_failure) as [[t s]|e] eqn:H;
    [|vm_compute in H; discriminate].
  exists t, s. split; [reflexivity|].
  apply (handle_failure_verify_vacuous sample_hexdigest default_protocol mcp_failure t s H).
  intros agent Hin. vm_compute in Hin.
  repeat (apply elem_of_cons in Hin as [-> | Hin];
          [simpl; rewrite list_elem_of_In; simpl; intuition discriminate|]).
  by apply elem_of_nil in Hin.
Defined.

(** X8. A trace reports the failure as it was handed in. With the
    repository's debugger the failure itself keeps type, description and
    context; a failure of type [MCP_ERROR] comes back resolved, with the
    solution of the debug step as its resolution and that fix added to the
    debugger's list, and a failure of another type comes back unchanged. *)
Theorem handle_failure_marks_resolved (hexdigest : string → string)
  (self : Protocol (list MCPDebugger.Fix)) (failure : Failure)
  (t : Trace) (self' : Protocol (list MCPDebugger.Fix)) (failure' : Failure) :
  handle_failure MCPDebugger.debug_failure hexdigest self failure =
    Ok (t, (self', failure')) →
  trace_failure t = failure ∧
  type failure' = type failure ∧
  description failure' = description failure ∧
  context failure' = context failure ∧
  (type failure = MCP_ERROR →
   resolved failure' = true ∧
   ∃ fx, steps t !! 0 = Some (mkStep "debug" (RDebug fx)) ∧
         resolution failure' = Some (MCPDebugger.solution fx) ∧
         debugger self' = debugger self ++ [fx]) ∧
  (type failure ≠ MCP_ERROR → failure' = failure ∧ debugger self' = debugger self).
Proof.
  intros (fx & dbg & pat & Hd & _ & Htf & Hsteps & Hdbg & _)%handle_failure_trace.
  apply debug_failure_effect in Hd as (_ & Hmcp & Hother).
  split; [done|].
  assert (type failure = MCP_ERROR ∨ type failure ≠ MCP_ERROR) as [Hty|Hty]
    by (destruct (type failure); (by left) || (by right)).
  - destruct (Hmcp Hty) as [-> ->]. cbn [type description context resolved resolution].
    split; [done|]. split; [done|]. split; [done|]. split; [|done].
    intros _. split; [done|]. exists fx. rewrite Hsteps. done.
  - destruct (Hother Hty) as [-> ->].
    split; [done|]. split; [done|]. split; [done|]. split; [done|]. done.
Qed.

Lemma handle_failure_marks_resolved_witness :
  ∃ t self' failure',
    handle_failure MCPDebugger.debug_failure sample_hexdigest default_protocol mcp_failure =
      Ok (t, (self', failure')) ∧
    resolved (trace_failure t) = false ∧
    resolved failure' = true.
Proof.
  destruct (handle_failure MCPDebugger.debug_failure sample_hexdigest
              default_protocol mcp_failure) as [[t [self' failure']]|e] eqn:H;
    [|vm_compute in H; discriminate].
  exists t, self', failure'. split; [reflexivity|].
  destruct (handle_failure_marks_resolved sample_hexdigest default_protocol mcp_failure
              t self' failure' H) as (Htf & _ & _ & _ & Hmcp & _).
  split; [by rewrite Htf | by apply Hmcp].
Defined.

Section HealingStep.

Context {D : Type}.
Variable debug_failure : DebugMethod D.
Variable hexdigest : string → string.

(** X9. The self-healing step of a returned trace holds the pattern the
    selector gives on the failure as the debugger leaves it, applied to
    the ["target"] entry of its context, ["system"] when there is none; the
    application is the last one in the orchestrator's list of applied
    patterns. *)
Theorem handle_failure_healing_step (self : Protocol D) (failure : Failure)
  (t : Trace) (self' : Protocol D) (failure' : Failure)
  (r : SelfHealingPatterns.Applied) :
  handle_failure debug_failure hexdigest self failure = Ok (t, (self', failure')) →
  mkStep "self_healing" (RHealing r) ∈ steps t →
  _determine_healing_pattern failure' = Ok (Some (SelfHealingPatterns.pattern r)) ∧
  SelfHealingPatterns.target r = default (VStr "system") (context failure' !! "target") ∧
  self_healing self' = self_healing self ++ [r].
Proof.
  intros (fx & dbg & pat & _ & Hsel & _ & Hsteps & _ & _ & _ & _ & Happ & _)%handle_failure_trace.
  rewrite Hsteps. unfold verify_steps.
  assert (Hv : mkStep "self_healing" (RHealing r) ∉
               match diagnosed_change fx with
               | Some change =>
                   match verify_change (verifier self) change with
                   | Ok (verdict, _) => [mkStep "verify" (RVerify verdict)]
                   | Raise _ => []
                   end
               | None => []
               end).
  { destruct (diagnosed_change fx); [|by intros ?%elem_of_nil].
    destruct (verify_change _ _) as [[? ?]|]; [|by intros ?%elem_of_nil].
    by intros [=]%list_elem_of_singleton. }
  rewrite !elem_of_app, !list_elem_of_singleton.
  intros [[=] | [? | [[=] | [Hin | [=]]]]]; [done|].
  revert Happ Hin. unfold healing_steps. destruct pat as [p|]; [|by intros _ ?%elem_of_nil].
  destruct (SelfHealingPatterns.lookup_pattern p _); [|by intros _ ?%elem_of_nil].
  intros Happ Hin%list_elem_of_singleton. injection Hin as ->.
  cbn [applied_of flat_map result app] in Happ.
  split; [exact Hsel|]. split; [reflexivity | exact Happ].
Qed.

End HealingStep.

Lemma handle_failure_healing_step_witness :
  ∃ t self' failure' r,
    handle_failure MCPDebugger.debug_failure sample_hexdigest default_protocol mcp_failure =
      Ok (t, (self', failure')) ∧
    steps t !! 3 = Some (mkStep "self_healing" (RHealing r)) ∧
    SelfHealingPatterns.target r = VStr "mcp_connect" ∧
    self_healing self' = [r].
Proof.
  destruct (handle_failure MCPDebugger.debug_failure sample_hexdigest
              default_protocol mcp_failure) as [[t [self' failure']]|e] eqn:H;
    [|vm_compute in H; discriminate].
  assert (Hctx : context failure' = context mcp_failure).
  { revert H. intros (fx & dbg & pat & Hd & _)%handle_failure_Ok.
    by apply debug_failure_keeps_context in Hd as [-> _]. }
  assert (∃ r, steps t !! 3 = Some (mkStep "self_healing" (RHealing r))) as [r Hr].
  { vm_compute in H. injection H as <- _ _. eexists. reflexivity. }
  exists t, self', failure', r. split; [reflexivity|]. split; [exact Hr|].
  destruct (handle_failure_healing_step MCPDebugger.debug_failure sample_hexdigest
              default_protocol mcp_failure t self' failure' r H) as (_ & Htgt & Hlog).
  - by eapply list_elem_of_lookup_2.
  - split; [by rewrite Htgt, Hctx | exact Hlog].
Defined.





(** ** The regression test generator *)

Lemma test_file_type (hexdigest : string → string) (f1 f2 : Failure) :
  "tests/regression/test_" +:+
    RegressionTestGenerator._generate_test_name hexdigest f1 +:+ ".py" =
  "tests/regression/test_" +:+
    RegressionTestGenerator._generate_test_name hexdigest f2 +:+ ".py" →
  type f1 = type f2.
Proof.
  unfold RegressionTestGenerator._generate_test_name.
  destruct (type f1), (type f2); intros H; try reflexivity;
    cbv [String.append FailureType_value] in H; discriminate.
Qed.

(** X11. [generate_from_failure] names the test file after the type and
    the digest of type and description only. Two failures with the same
    type and description get the same file, whatever their contexts: the
    second generation overwrites the file of the first, while the list of
    generated tests grows by two and the other files stay. Failures of
    different types never share a file. *)
Theorem generate_from_failure_overwrites (hexdigest : string → string)
  (g : RegressionTestGenerator.Generator) (f1 f2 : Failure) :
  let run1 := RegressionTestGenerator.generate_from_failure hexdigest g f1 in
  let run2 := RegressionTestGenerator.generate_from_failure hexdigest (snd run1) f2 in
  (fst run1 = fst run2 → type f1 = type f2) ∧
  (type f1 = type f2 → description f1 = description f2 →
   fst run1 = fst run2 ∧
   RegressionTestGenerator.written (snd run2) !! fst run1 =
     Some (RegressionTestGenerator._generate_test_code hexdigest f2) ∧
   (∀ path, path ≠ fst run1 →
      RegressionTestGenerator.written (snd run2) !! path =
      RegressionTestGenerator.written g !! path) ∧
   length (RegressionTestGenerator.generated_tests (snd run2)) =
     length (RegressionTestGenerator.generated_tests g) + 2).
Proof.
  cbn zeta. unfold RegressionTestGenerator.generate_from_failure.
  cbn [fst snd RegressionTestGenerator.written RegressionTestGenerator.generated_tests].
  split.
  - apply test_file_type.
  - intros Hty Hdesc.
    assert (Hname : RegressionTestGenerator._generate_test_name hexdigest f1 =
                    RegressionTestGenerator._generate_test_name hexdigest f2)
      by (unfold RegressionTestGenerator._generate_test_name; by rewrite Hty, Hdesc).
    rewrite Hname. split; [done|]. split; [apply lookup_insert_eq|]. split.
    + intros path Hne. by rewrite !lookup_insert_ne.
    + rewrite !length_app. simpl. lia.
Qed.

(** ** The evaluation framework *)

Lemma get_suite_dict_set (name : string)
  (cases : list EvaluationFramework.TestCase)
  (d : list (string * list EvaluationFramework.TestCase)) :
  EvaluationFramework.get_suite name (dict_set name cases d) = cases.
Proof.
  induction d as [|[k cs] d IH]; simpl.
  - by rewrite String.eqb_refl.
  - destruct (String.eqb_spec k name) as [->|Hne]; simpl.
    + by rewrite String.eqb_refl.
    + destruct (String.eqb_spec k name); [done | exact IH].
Qed.

Lemma get_suite_dict_set_ne (name other : string)
  (cases : list EvaluationFramework.TestCase)
  (d : list (string * list EvaluationFramework.TestCase)) :
  other ≠ name →
  EvaluationFramework.get_suite other (dict_set name cases d) =
  EvaluationFramework.get_suite other d.
Proof.
  intros Hne. induction d as [|[k cs] d IH]; simpl.
  - destruct (String.eqb_spec name other); [congruence | done].
  - destruct (String.eqb_spec k name) as [->|Hk]; simpl.
    + destruct (String.eqb_spec name other); [congruence | done].
    + destruct (String.eqb_spec k other); [done | exact IH].
Qed.

Lemma dict_set_keys {V} (k : string) (v : V) (d : list (string * V)) :
  map fst (dict_set k v d) = if mem k (map fst d) then map fst d else map fst d ++ [k].
Proof.
  unfold mem. induction d as [|[k' v'] d IH]; simpl; [done|].
  rewrite (String.eqb_sym k k').
  destruct (String.eqb_spec k' k) as [->|Hne]; simpl; [done|].
  rewrite IH. by destruct (existsb _ _).
Qed.

(** X12. [create_test_suite] followed by a lookup gives the cases back and
    leaves the other suites as they were; a suite that is replaced keeps
    its place, a new one goes last, and no name is listed twice. *)
Theorem create_test_suite_lookup (name : string)
  (cases : list EvaluationFramework.TestCase) (e : EvaluationFramework.Evaluator) :
  let e' := EvaluationFramework.create_test_suite name cases e in
  EvaluationFramework.get_suite name (EvaluationFramework.test_suites e') = cases ∧
  (∀ other, other ≠ name →
     EvaluationFramework.get_suite other (EvaluationFramework.test_suites e') =
     EvaluationFramework.get_suite other (EvaluationFramework.test_suites e)) ∧
  map fst (EvaluationFramework.test_suites e') =
    (if mem name (map fst (EvaluationFramework.test_suites e))
     then map fst (EvaluationFramework.test_suites e)
     else map fst (EvaluationFramework.test_suites e) ++ [name]) ∧
  (NoDup (map fst (EvaluationFramework.test_suites e)) →
   NoDup (map fst (EvaluationFramework.test_suites e'))) ∧
  EvaluationFramework.results e' = EvaluationFramework.results e.
Proof.
  cbn zeta. unfold EvaluationFramework.create_test_suite.
  cbn [EvaluationFramework.test_suites EvaluationFramework.results].
  split; [apply get_suite_dict_set|].
  split; [intros other Hne; by apply get_suite_dict_set_ne|].
  split; [apply dict_set_keys|]. split; [|done].
  intros Hnd. rewrite dict_set_keys.
  destruct (mem name _) eqn:Hm; [done|].
  apply NoDup_app. split; [done|]. split; [|apply NoDup_singleton].
  intros x Hx ->%list_elem_of_singleton.
  apply mem_elem_of in Hx. congruence.
Qed.

Lemma run_test_idempotent (tc : EvaluationFramework.TestCase) :
  EvaluationFramework._run_test (EvaluationFramework._run_test tc) =
  EvaluationFramework._run_test tc.
Proof. reflexivity. Qed.

Lemma ratio_bounds (a b : nat) :
  a ≤ b → (0 <= EvaluationFramework.ratio a b)%Q ∧ (EvaluationFramework.ratio a b <= 1)%Q.
Proof.
  intros Hab. unfold EvaluationFramework.ratio.
  destruct (Nat.ltb_spec 0 b) as [Hb|Hb]; [|done].
  assert (Hz : Z.pos (Pos.of_nat b) = Z.of_nat b)
    by (rewrite <- positive_nat_Z, Nat2Pos.id by lia; done).
  unfold Qle. simpl. rewrite Hz. lia.
Qed.

Lemma ratio_threshold (a b : nat) :
  Qle_bool (8 # 10) (EvaluationFramework.ratio a b) = true ↔ 0 < b ∧ 8 * b ≤ 10 * a.
Proof.
  unfold EvaluationFramework.ratio.
  destruct (Nat.ltb_spec 0 b) as [Hb|Hb].
  - assert (Hz : Z.pos (Pos.of_nat b) = Z.of_nat b)
      by (rewrite <- positive_nat_Z, Nat2Pos.id by lia; done).
    rewrite Qle_bool_iff. unfold Qle. simpl Qnum. simpl Qden. rewrite Hz. lia.
  - split; [discriminate | lia].
Qed.

(** X13. A suite that ran has as many results as test cases, each with an
    outcome and an actual output; a test passes when the output for its
    input equals its expected output. The passed and failed counts add up
    to the total, the pass rate lies between 0 and 1, and the report
    recommends improving the suite exactly when it is empty or fewer than
    8 in 10 of its tests pass. *)
Theorem run_suite_counts (suite_name : string)
  (test_cases : list EvaluationFramework.TestCase) :
  let r := EvaluationFramework._run_suite suite_name test_cases in
  EvaluationFramework.total_tests r = length test_cases ∧
  EvaluationFramework.suite_passed r = passing test_cases ∧
  EvaluationFramework.suite_passed r + EvaluationFramework.failed r =
    EvaluationFramework.total_tests r ∧
  (0 <= EvaluationFramework.pass_rate r)%Q ∧ (EvaluationFramework.pass_rate r <= 1)%Q ∧
  Forall (fun tc => is_Some (EvaluationFramework.passed tc) ∧
                    is_Some (EvaluationFramework.actual_output tc))
         (EvaluationFramework.test_results r) ∧
  (EvaluationFramework._generate_recommendations [(suite_name, r)] = [] ↔
   test_cases ≠ [] ∧ 8 * length test_cases ≤ 10 * passing test_cases).
Proof.
  cbn zeta. unfold EvaluationFramework._run_suite, passing.
  cbn [EvaluationFramework.total_tests EvaluationFramework.suite_passed
       EvaluationFramework.failed EvaluationFramework.pass_rate
       EvaluationFramework.test_results].
  set (results := map EvaluationFramework._run_test test_cases).
  assert (Hcount : length (filter (fun r => EvaluationFramework.passed r = Some true) results)
                   = length (filter (fun tc => py_eq (EvaluationFramework._execute_test
                                                        (EvaluationFramework.input_data tc))
                                                     (EvaluationFramework.expected_output tc)
                                               = true)
                                    test_cases)).
  { subst results. induction test_cases as [|tc tcs IH]; [done|].
    cbn [map]. rewrite !filter_cons.
    cbn [EvaluationFramework._run_test EvaluationFramework.passed].
    destruct (py_eq _ _); repeat case_decide; try done; simpl; by rewrite IH. }
  pose proof (length_filter (fun r => EvaluationFramework.passed r = Some true) results) as Hle.
  assert (Hlen : length results = length test_cases) by apply length_map.
  rewrite Hlen in *.
  split; [done|]. split; [done|]. split; [lia|].
  destruct (ratio_bounds _ _ Hle) as [H0 H1].
  split; [done|]. split; [done|]. split.
  - subst results. apply Forall_forall. intros tc (tc0 & -> & _)%list_elem_of_fmap.
    split; eexists; reflexivity.
  - unfold EvaluationFramework._generate_recommendations.
    cbn [flat_map EvaluationFramework.pass_rate app].
    rewrite <- Hcount.
    destruct (Qle_bool _ _) eqn:Hq.
    + apply ratio_threshold in Hq as [Hpos Hq]. split; [|done]. intros _.
      split; [|done]. destruct test_cases; [simpl in Hpos; lia | done].
    + split; [discriminate|]. intros [Hne Hq']. exfalso.
      assert (Qle_bool (8 # 10)
                (EvaluationFramework.ratio
                   (length (filter (fun r => EvaluationFramework.passed r = Some true)
                                   results))
                   (length test_cases)) = true) as Hq''.
      { apply ratio_threshold. split; [|done]. destruct test_cases; [done | simpl; lia]. }
      congruence.
Qed.

Lemma get_suite_missing (name : string)
  (d : list (string * list EvaluationFramework.TestCase)) :
  name ∉ map fst d → EvaluationFramework.get_suite name d = [].
Proof.
  induction d as [|[k cs] d IH]; simpl; [done|].
  intros [Hne Hin]%not_elem_of_cons.
  destruct (String.eqb_spec k name); [congruence | by apply IH].
Qed.

(** X14. [run_evaluation] on a name no suite is registered under runs an
    empty suite: the report counts one suite and no test, its pass rate is
    0 and it recommends improving the suite, with 0 tests failing; the
    registered suites are left as they were. *)
Theorem run_evaluation_unknown_suite (name : string) (e : EvaluationFramework.Evaluator) :
  name ≠ "" →
  name ∉ map fst (EvaluationFramework.test_suites e) →
  fst (EvaluationFramework.run_evaluation (Some name) e) =
    {| EvaluationFramework.summary :=
         {| EvaluationFramework.total_suites := 1;
            EvaluationFramework.summary_total_tests := 0;
            EvaluationFramework.total_passed := 0;
            EvaluationFramework.total_failed := 0;
            EvaluationFramework.overall_pass_rate := 0 |};
       EvaluationFramework.suites :=
         [(name, {| EvaluationFramework.suite_name := name;
                    EvaluationFramework.total_tests := 0;
                    EvaluationFramework.suite_passed := 0;
                    EvaluationFramework.failed := 0;
                    EvaluationFramework.pass_rate := 0;
                    EvaluationFramework.test_results := [] |})];
       EvaluationFramework.recommendations :=
         [[Lit "Improve "; Lit name; Lit ": "; Val (VInt 0); Lit " tests failing"]] |} ∧
  EvaluationFramework.test_suites (snd (EvaluationFramework.run_evaluation (Some name) e)) =
    EvaluationFramework.test_suites e.
Proof.
  intros Hne Hmiss. unfold EvaluationFramework.run_evaluation.
  destruct (String.eqb_spec name ""); [done|].
  rewrite get_suite_missing by done.
  cbn [fst snd EvaluationFramework.test_suites]. split; [reflexivity|].
  cbn [map fst].
  induction (EvaluationFramework.test_suites e) as [|[k cs] d IH]; [done|].
  cbn [map fst] in *. apply not_elem_of_cons in Hmiss as [Hk Hmiss].
  rewrite IH by done. f_equal.
  unfold mem. cbn [existsb]. destruct (String.eqb_spec k name); [congruence | done].
Qed.

Lemma run_evaluation_unknown_suite_witness :
  EvaluationFramework.recommendations
    (fst (EvaluationFramework.run_evaluation (Some "smoke")
            (EvaluationFramework.mkEvaluator [] []))) =
  [[Lit "Improve "; Lit "smoke"; Lit ": "; Val (VInt 0); Lit " tests failing"]].
Proof.
  destruct (run_evaluation_unknown_suite "smoke" (EvaluationFramework.mkEvaluator [] []))
    as [-> _]; [discriminate | by intros ?%elem_of_nil | reflexivity].
Defined.

Lemma py_eq_success_true (v : PyVal) :
  py_eq v (VDict [("success", VBool true)]) = eq_success_true v.
Proof.
  destruct v as [| | | |[|[k x] [|kv kvs]]]; try reflexivity.
  cbn [py_eq eq_success_true length Nat.eqb andb dict_get].
  rewrite String.eqb_sym.
  destruct (String.eqb k "success"); [|reflexivity].
  rewrite andb_true_r.
  destruct x as [|[|]|z| |]; reflexivity.
Qed.

Lemma run_suite_single (suite_name : string) (tc : EvaluationFramework.TestCase) :
  EvaluationFramework._run_suite suite_name [tc] =
  let ok := py_eq (EvaluationFramework._execute_test
                     (EvaluationFramework.input_data tc))
                  (EvaluationFramework.expected_output tc) in
  {| EvaluationFramework.suite_name := suite_name;
     EvaluationFramework.total_tests := 1;
     EvaluationFramework.suite_passed := if ok then 1 else 0;
     EvaluationFramework.failed := if ok then 0 else 1;
     EvaluationFramework.pass_rate := if ok then 1 else 0;
     EvaluationFramework.test_results := [EvaluationFramework._run_test tc] |}.
Proof.
  unfold EvaluationFramework._run_suite. cbn [map length]. cbn zeta.
  set (ok := py_eq _ _).
  set (r := EvaluationFramework._run_test tc).
  assert (Hp : EvaluationFramework.passed r = Some ok) by reflexivity.
  clearbody r ok. rewrite filter_cons, filter_nil.
  destruct (decide (EvaluationFramework.passed r = Some true)) as [Ht|Hf].
  - assert (ok = true) as -> by congruence. reflexivity.
  - assert (ok = false) as -> by (destruct ok; congruence). reflexivity.
Qed.

(** X15. The evaluation step of [handle_failure] runs one test, which
    passes exactly when the context holds an ["expected_result"] equal to
    [{"success": True}]; a context without that entry gives a report with
    0 of 1 tests passed and a recommendation, whatever suites the evaluator
    held before. The suite stays registered under ["fix_<type>"], with the
    test as the run left it. *)
Theorem run_evaluation_of_failure (e : EvaluationFramework.Evaluator) (failure : Failure) :
  let report := fst (_run_evaluation e failure) in
  let e' := snd (_run_evaluation e failure) in
  EvaluationFramework.summary report =
    {| EvaluationFramework.total_suites := 1;
       EvaluationFramework.summary_total_tests := 1;
       EvaluationFramework.total_passed := if expects_success failure then 1 else 0;
       EvaluationFramework.total_failed := if expects_success failure then 0 else 1;
       EvaluationFramework.overall_pass_rate :=
         if expects_success failure then 1 else 0 |} ∧
  (EvaluationFramework.recommendations report = [] ↔ expects_success failure = true) ∧
  (context failure !! "expected_result" = None → expects_success failure = false) ∧
  (∃ tc, EvaluationFramework.get_suite ("fix_" +:+ FailureType_value (type failure))
           (EvaluationFramework.test_suites e') = [tc] ∧
         EvaluationFramework.passed tc = Some (expects_success failure) ∧
         EvaluationFramework.input_data tc = context failure) ∧
  length (EvaluationFramework.results e') = length (EvaluationFramework.results e) + 1.
Proof.
  cbn zeta. unfold _run_evaluation, EvaluationFramework.run_evaluation.
  set (suite := "fix_" +:+ FailureType_value (type failure)).
  assert (Hne : String.eqb suite "" = false) by (subst suite; by destruct (type failure)).
  rewrite Hne.
  unfold EvaluationFramework.create_test_suite.
  cbn [EvaluationFramework.test_suites EvaluationFramework.results fst snd].
  rewrite get_suite_dict_set.
  cbn [fold_left dict_set]. rewrite run_suite_single. cbn zeta.
  cbn [EvaluationFramework.input_data EvaluationFramework.expected_output].
  rewrite py_eq_success_true. unfold EvaluationFramework._execute_test.
  fold (expects_success failure).
  split; [|split; [|split; [|split]]].
  - destruct (expects_success failure); reflexivity.
  - destruct (expects_success failure); split; done.
  - intros Hnone. unfold expects_success. by rewrite Hnone.
  - set (ts := dict_set suite _ _).
    assert (Hget : EvaluationFramework.get_suite suite ts = _) by apply get_suite_dict_set.
    clearbody ts. cbn [map fst].
    induction ts as [|[k cs] ts IH]; [discriminate|].
    cbn [map EvaluationFramework.get_suite] in *.
    unfold mem at 1. cbn [existsb]. rewrite orb_false_r.
    destruct (String.eqb_spec k suite) as [->|Hk].
    + rewrite String.eqb_refl. subst cs.
      eexists. split; [reflexivity|].
      cbn [EvaluationFramework._run_test EvaluationFramework.passed
           EvaluationFramework.input_data EvaluationFramework.expected_output].
      by rewrite py_eq_success_true.
    + destruct (String.eqb_spec k suite); [congruence|]. by apply IH.
  - rewrite length_app. simpl. lia.
Qed.

Lemma run_suite_rerun (suite_name : string) (cases : list EvaluationFramework.TestCase) :
  EvaluationFramework._run_suite suite_name (map EvaluationFramework._run_test cases) =
  EvaluationFramework._run_suite suite_name cases.
Proof.
  unfold EvaluationFramework._run_suite.
  assert (Hmap : map EvaluationFramework._run_test (map EvaluationFramework._run_test cases)
                 = map EvaluationFramework._run_test cases).
  { induction cases as [|tc cases IH]; [done|]. cbn [map]. by rewrite IH. }
  by rewrite Hmap.
Qed.

Lemma get_suite_ran (name : string)
  (d : list (string * list EvaluationFramework.TestCase)) :
  EvaluationFramework.get_suite name
    (map (fun '(n, cases) =>
            if mem n [name] then (n, map EvaluationFramework._run_test cases)
            else (n, cases)) d) =
  map EvaluationFramework._run_test (EvaluationFramework.get_suite name d).
Proof.
  induction d as [|[k cs] d IH]; [done|].
  cbn [map EvaluationFramework.get_suite]. unfold mem at 1. cbn [existsb].
  rewrite orb_false_r.
  destruct (String.eqb_spec k name) as [->|Hk].
  - by rewrite String.eqb_refl.
  - destruct (String.eqb_spec k name); [congruence | exact IH].
Qed.

Lemma all_suites_ran (d : list (string * list EvaluationFramework.TestCase))
  (ran : list string) :
  (∀ n, n ∈ map fst d → n ∈ ran) →
  map (fun '(n, cases) =>
         if mem n ran then (n, map EvaluationFramework._run_test cases)
         else (n, cases)) d =
  map (fun '(n, cases) => (n, map EvaluationFramework._run_test cases)) d.
Proof.
  intros Hran. induction d as [|[k cs] d IH]; [done|]. cbn [map fst] in *.
  rewrite IH by (intros n Hn; apply Hran; by right).
  assert (mem k ran = true) as -> by (apply mem_elem_of, Hran; left). done.
Qed.

Lemma fold_suites_ran (d : list (string * list EvaluationFramework.TestCase))
  (acc : list (string * EvaluationFramework.SuiteResult)) :
  fold_left (fun acc '(n, cases) =>
               dict_set n (EvaluationFramework._run_suite n cases) acc)
            (map (fun '(n, cases) => (n, map EvaluationFramework._run_test cases)) d) acc =
  fold_left (fun acc '(n, cases) =>
               dict_set n (EvaluationFramework._run_suite n cases) acc) d acc.
Proof.
  revert acc. induction d as [|[k cs] d IH]; intros acc; [done|].
  cbn [map fold_left]. by rewrite run_suite_rerun, IH.
Qed.

(** X16. Running an evaluation again gives the same report: the test
    cases a run updates in place keep their inputs, so a second run of the
    same suite, or of all suites, finds the same outcomes. *)
Theorem run_evaluation_rerun (suite_name : option string)
  (e : EvaluationFramework.Evaluator) :
  fst (EvaluationFramework.run_evaluation suite_name
         (snd (EvaluationFramework.run_evaluation suite_name e))) =
  fst (EvaluationFramework.run_evaluation suite_name e) ∧
  map fst (EvaluationFramework.test_suites
             (snd (EvaluationFramework.run_evaluation suite_name e))) =
  map fst (EvaluationFramework.test_suites e).
Proof.
  assert (Hall : ∀ ts : list (string * list EvaluationFramework.TestCase),
            map (fun '(n, cases) =>
                   if mem n (map fst ts)
                   then (n, map EvaluationFramework._run_test cases) else (n, cases)) ts =
            map (fun '(n, cases) => (n, map EvaluationFramework._run_test cases)) ts)
    by (intros ts; by apply all_suites_ran).
  assert (Hkeys : ∀ (ran : list string) (ts : list (string * list EvaluationFramework.TestCase)),
            map fst (map (fun '(n, cases) =>
                            if mem n ran
                            then (n, map EvaluationFramework._run_test cases)
                            else (n, cases)) ts) = map fst ts).
  { intros ran ts. induction ts as [|[k cs] ts IH]; [done|].
    cbn [map fst]. rewrite IH. by destruct (mem k ran). }
  unfold EvaluationFramework.run_evaluation.
  cbn [fst snd EvaluationFramework.test_suites].
  split; [|destruct suite_name as [n|]; [destruct (String.eqb n "")|]; apply Hkeys].
  f_equal.
  destruct suite_name as [n|]; [destruct (String.eqb n "")|].
  - by rewrite Hall, fold_suites_ran.
  - cbn [map fst fold_left]. by rewrite get_suite_ran, run_suite_rerun.
  - by rewrite Hall, fold_suites_ran.
Qed.

(** ** The debugger *)

Lemma append_assoc_s (a b c : string) : (a +:+ b) +:+ c = a +:+ (b +:+ c).
Proof. induction a as [|x a IH]; [done|]. rewrite !append_cons. by rewrite IH. Qed.

Lemma lower_app (a b : string) : lower (a +:+ b) = lower a +:+ lower b.
Proof.
  induction a as [|x a IH]; [done|].
  rewrite append_cons. cbn [lower]. by rewrite append_cons, IH.
Qed.

Lemma occurs_lower (k s : string) : occurs k s → occurs (lower k) (lower s).
Proof.
  intros (pre & post & ->). exists (lower pre), (lower post).
  by rewrite !lower_app.
Qed.

Lemma scan_lines_error (ls : list string) (error_type error_location : string) :
  fst (fold_left (fun '(error_type, error_location) line =>
                    (if is_substring "Error:" line then line else error_type,
                     if is_substring "File" line && is_substring ".py" line
                     then line else error_location))
                 ls (error_type, error_location)) =
  default error_type (last (filter (fun line => is_substring "Error:" line = true) ls)).
Proof.
  revert error_type error_location. induction ls as [|l ls IH]; intros et el; [done|].
  cbn [fold_left]. rewrite IH, filter_cons.
  destruct (decide (is_substring "Error:" l = true)) as [Hl|Hl].
  - rewrite Hl, last_cons. by destruct (last _).
  - apply not_true_is_false in Hl. by rewrite Hl.
Qed.

Lemma error_line_nonempty (line : string) :
  is_substring "Error:" line = true → String.eqb line "" = false.
Proof. by destruct line. Qed.

(** X17. The issue [_analyze_and_fix_error] reports is the last line of
    the traceback that holds ["Error:"], and ["Unknown error"] when no line
    does. *)
Theorem analyze_and_fix_error_issue (stack_trace : string) :
  MCPDebugger.issue (MCPDebugger._analyze_and_fix_error stack_trace) =
    [Lit (default "Unknown error" (last (error_lines stack_trace)))] ∧
  (error_lines stack_trace = [] ↔
   MCPDebugger.issue (MCPDebugger._analyze_and_fix_error stack_trace) =
     [Lit "Unknown error"]).
Proof.
  assert (Hissue : MCPDebugger.issue (MCPDebugger._analyze_and_fix_error stack_trace) =
            [Lit (default "Unknown error" (last (error_lines stack_trace)))]).
  { unfold MCPDebugger._analyze_and_fix_error, MCPDebugger.scan_lines, error_lines.
    pose proof (scan_lines_error (split_lines stack_trace) "" "") as Hscan.
    destruct (fold_left _ _ _) as [error_type error_location].
    cbn [fst] in Hscan. cbn [MCPDebugger.issue]. subst error_type.
    destruct (last _) as [line|] eqn:Hlast; [|done]. cbn [default].
    apply last_Some_elem_of, list_elem_of_filter in Hlast as [Hline _].
    unfold Datatypes.id. by rewrite (error_line_nonempty _ Hline). }
  split; [exact Hissue|]. rewrite Hissue. split.
  - by intros ->.
  - intros Heq. destruct (last (error_lines stack_trace)) as [line|] eqn:Hlast.
    + cbn [default] in Heq. unfold Datatypes.id in Heq.
      apply last_Some_elem_of in Hlast. unfold error_lines in Hlast.
      apply list_elem_of_filter in Hlast as [Hline _].
      injection Heq as ->. discriminate Hline.
    + by apply last_None in Hlast.
Qed.

(** X18. For an MCP error the fix is chosen by the first of connection,
    timeout and authentication that the traceback holds, in any letter
    case: a traceback that mentions a connection gets the connection fix
    even when it mentions a timeout as well. Only a traceback that holds
    none of the three is analysed line by line. *)
Theorem fix_mcp_error_priority (fixes : list MCPDebugger.Fix) (failure : Failure)
  (error_trace : string) :
  context_get failure "traceback" (VStr "") = VStr error_trace →
  ∃ fx st,
    MCPDebugger._fix_mcp_error fixes failure = Ok (fx, st) ∧
    (∀ k, lower k = "connection" → occurs k error_trace →
          fx = MCPDebugger._fix_connection_issue failure) ∧
    (¬ occurs "connection" (lower error_trace) →
     (∀ k, lower k = "timeout" → occurs k error_trace →
           fx = MCPDebugger._fix_timeout_issue failure) ∧
     (¬ occurs "timeout" (lower error_trace) →
      (∀ k, lower k = "authentication" → occurs k error_trace →
            fx = MCPDebugger._fix_auth_issue failure) ∧
      (¬ occurs "authentication" (lower error_trace) →
       fx = MCPDebugger._analyze_and_fix_error error_trace))).
Proof.
  intros Htrace. unfold MCPDebugger._fix_mcp_error. rewrite Htrace.
  eexists _, _. split; [reflexivity|].
  assert (Hfound : ∀ k w, lower k = w → occurs k error_trace →
            is_substring w (lower error_trace) = true).
  { intros k w <- Hocc. by apply is_substring_occurs, occurs_lower. }
  split.
  { intros k Hk Hocc. by rewrite (Hfound k _ Hk Hocc). }
  intros Hc%is_substring_not_occurs. rewrite Hc. split.
  { intros k Hk Hocc. by rewrite (Hfound k _ Hk Hocc). }
  intros Ht%is_substring_not_occurs. rewrite Ht. split.
  { intros k Hk Hocc. by rewrite (Hfound k _ Hk Hocc). }
  intros Ha%is_substring_not_occurs. by rewrite Ha.
Qed.

Lemma fix_mcp_error_priority_witness :
  context_get mcp_failure "traceback" (VStr "") =
    VStr "TimeoutError: Connection timed out after 30s" ∧
  occurs "Connection" "TimeoutError: Connection timed out after 30s" ∧
  ∃ st, MCPDebugger._fix_mcp_error [] mcp_failure =
          Ok (MCPDebugger._fix_connection_issue mcp_failure, st).
Proof.
  assert (Hocc : occurs "Connection" "TimeoutError: Connection timed out after 30s")
    by (by exists "TimeoutError: ", " timed out after 30s").
  split; [reflexivity|]. split; [exact Hocc|].
  destruct (fix_mcp_error_priority [] mcp_failure
              "TimeoutError: Connection timed out after 30s" eq_refl)
    as (fx & st & Hrun & Hconn & _).
  exists st. rewrite Hrun. by rewrite (Hconn "Connection" eq_refl Hocc).
Defined.

(** ** Tool discovery *)

(** X19. [discover_tool] stores what it found under the tool's name: the
    description is there to look up and names the tool, the other tools
    stay as they were, the registry file holds the tools in memory, and no
    integration file is touched. A source other than ["api"] and
    ["context7"] is read as the documentation. *)
Theorem discover_tool_registers (tool_name source : string)
  (d : ToolDiscovery.Discovery) :
  let run := ToolDiscovery.discover_tool tool_name source d in
  ToolDiscovery.available_tools (snd run) !! tool_name = Some (fst run) ∧
  ToolDiscovery.info_get "name" (fst run) = Some (ToolDiscovery.FStr tool_name) ∧
  (∀ other, other ≠ tool_name →
     ToolDiscovery.available_tools (snd run) !! other =
     ToolDiscovery.available_tools d !! other) ∧
  ToolDiscovery.tool_registry (snd run) = Some (ToolDiscovery.available_tools (snd run)) ∧
  ToolDiscovery.integration_files (snd run) = ToolDiscovery.integration_files d ∧
  (source ≠ "api" → source ≠ "context7" →
   fst run = ToolDiscovery._discover_from_docs tool_name).
Proof.
  unfold ToolDiscovery.discover_tool.
  destruct (String.eqb_spec source "api") as [Hapi|Hapi];
    [|destruct (String.eqb_spec source "context7") as [Hctx|Hctx]];
    cbn [ToolDiscovery._discover_from_api ToolDiscovery._discover_from_context7
         ToolDiscovery._discover_from_docs fst snd
         ToolDiscovery.available_tools ToolDiscovery.tool_registry
         ToolDiscovery.integration_files];
    (split; [by rewrite lookup_insert_eq|]);
    (split; [reflexivity|]);
    (split; [by intros other Hother; rewrite lookup_insert_ne|]);
    (split; [reflexivity|]);
    (split; [reflexivity|]); intros; done.
Qed.





(** ** The documentation tester *)

(** X22. [_analyze_test_results] splits the results into successes and
    failures: the two counts add up to the total, the failures are the
    results without success, and the success rate lies between 0 and 1. The rate is 1 exactly when there are results and none failed;
    without results it is 0, though nothing failed. *)
Theorem analyze_test_results_counts (results : list DocumentationTester.BlockResult) :
  let analysis := DocumentationTester._analyze_test_results results in
  DocumentationTester.total_tests analysis = length results ∧
  DocumentationTester.successful analysis + DocumentationTester.failed analysis =
    DocumentationTester.total_tests analysis ∧
  length (DocumentationTester.failures analysis) = DocumentationTester.failed analysis ∧
  (∀ r, r ∈ DocumentationTester.failures analysis ↔
        r ∈ results ∧ DocumentationTester.success r = false) ∧
  (0 <= DocumentationTester.success_rate analysis)%Q ∧
  (DocumentationTester.success_rate analysis <= 1)%Q ∧
  ((DocumentationTester.success_rate analysis == 1)%Q ↔
   results ≠ [] ∧ DocumentationTester.failures analysis = []) ∧
  (results = [] → (DocumentationTester.success_rate analysis == 0)%Q).
Proof.
  cbn zeta. unfold DocumentationTester._analyze_test_results.
  cbn [DocumentationTester.total_tests DocumentationTester.successful
       DocumentationTester.failed DocumentationTester.success_rate
       DocumentationTester.failures].
  set (ok := filter (fun r => DocumentationTester.success r = true) results).
  set (ko := filter (fun r => DocumentationTester.success r = false) results).
  assert (Hlen : length ok + length ko = length results).
  { subst ok ko. induction results as [|r results IH]; [done|].
    rewrite !filter_cons.
    destruct (DocumentationTester.success r) eqn:Hr;
      repeat case_decide; try done; cbn [length]; lia. }
  split; [done|]. split; [lia|]. split; [lia|].
  split; [intros r; subst ko; by rewrite list_elem_of_filter, (comm and)|].
  destruct (ratio_bounds (length ok) (length results)) as [H0 H1]; [lia|].
  split; [done|]. split; [done|]. split.
  - unfold EvaluationFramework.ratio.
    destruct (Nat.ltb_spec 0 (length results)) as [Hpos|Hpos].
    + rewrite ratio_one by done. split.
      * intros Hall. split; [intros ->; cbn [length] in Hpos; lia|].
        apply length_zero_iff_nil. lia.
      * intros [_ Hko]. rewrite Hko in Hlen. cbn [length] in Hlen. lia.
    + split; [discriminate|]. intros [Hne _]. destruct results; [done|].
      cbn [length] in Hpos. lia.
  - by intros ->.
Qed.

(** X23. [_fix_code_example] only ever puts a line before the code: the
    code of the failure ends what it returns. A [NameError] is looked at
    first, numpy before pandas, and an [ImportError] only without one: an
    error that names both and neither library leaves the code as it is. On
    a failure whose error is [None] the call raises a [TypeError]. *)
Theorem fix_code_example_prepends (failure : DocumentationTester.BlockResult) :
  match DocumentationTester.error failure with
  | None => ∃ msg, DocumentationTester._fix_code_example failure = inl (TypeError msg)
  | Some err =>
      ∃ header,
        DocumentationTester._fix_code_example failure =
          inr (header +:+ DocumentationTester.code failure) ∧
        (occurs "NameError" err → occurs "numpy" err →
         header = "import numpy as np" +:+ String "010"%char "") ∧
        (occurs "NameError" err → ¬ occurs "numpy" err → occurs "pandas" err →
         header = "import pandas as pd" +:+ String "010"%char "") ∧
        (occurs "NameError" err → ¬ occurs "numpy" err → ¬ occurs "pandas" err →
         header = "") ∧
        (¬ occurs "NameError" err → occurs "ImportError" err →
         header = "# Fixed import" +:+ String "010"%char "") ∧
        (¬ occurs "NameError" err → ¬ occurs "ImportError" err → header = "")
  end.
Proof.
  unfold DocumentationTester._fix_code_example.
  destruct (DocumentationTester.error failure) as [err|]; [|by eexists].
  destruct (is_substring "NameError" err) eqn:Hname;
    [destruct (is_substring "numpy" err) eqn:Hnp;
       [|destruct (is_substring "pandas" err) eqn:Hpd]
    |destruct (is_substring "ImportError" err) eqn:Himp];
    repeat match goal with
           | H : is_substring _ _ = true |- _ => apply is_substring_occurs in H
           | H : is_substring _ _ = false |- _ => apply is_substring_not_occurs in H
           end.
  - exists ("import numpy as np" +:+ String "010"%char "").
    split; [reflexivity|]. repeat split; intros; done.
  - exists ("import pandas as pd" +:+ String "010"%char "").
    split; [reflexivity|]. repeat split; intros; done.
  - exists "". split; [reflexivity|]. repeat split; intros; done.
  - exists ("# Fixed import" +:+ String "010"%char "").
    split; [reflexivity|]. repeat split; intros; done.
  - exists "". split; [reflexivity|]. repeat split; intros; done.
Qed.
